(** * HangMan: the game-state engine of [hangman.py] and the win/lose tests
      of [main.py], embedded in Rocq.

    Python values are modelled as follows.
    - A [str] is the list of its Unicode code points ([pystr]).  Python has
      no character type: an element of a string, an entry of [self.hint]
      and a member of [self.guessed_letters] are all strings, and are kept
      as strings here.
    - [self.hint] is a Python list, updated in place by index; an index out
      of range raises [IndexError].
    - [self.guessed_letters] is a Python set of strings: a [gset pystr].
    - The two counters are Python integers: [Z].
    - A method is a function from the object's state to a result (a value
      or a raised exception) and the state it leaves behind.
    - [str.lower] and [str.isalpha] are the interpreter's Unicode tables.
      They are Variables of the section below; what a proof needs to know
      about them is a Hypothesis named after the fact it states.  Their
      restrictions to ASCII are given in full ([lower_ascii],
      [isalpha_ascii]) so that every definition runs on ASCII text. *)

From Stdlib Require Import ZArith NArith String Ascii List DecimalString.
From stdpp Require Import base decidable option list gmap.

Local Open Scope Z_scope.

(** ** Python strings *)

Abbreviation pystr := (list N).

(** A string literal of the source (all of them are ASCII). *)
Definition lit (s : string) : pystr :=
  List.map N_of_ascii (list_ascii_of_string s).

(** The one-character string ["_"], the mark of a hidden letter. *)
Definition underscore : pystr := [95%N].

(** [sub in s] for two strings: [sub] occurs in [s] as a substring. *)
Fixpoint str_startswith (s sub : pystr) : bool :=
  match sub, s with
  | [], _ => true
  | _ :: _, [] => false
  | a :: sub', b :: s' => (a =? b)%N && str_startswith s' sub'
  end.

Fixpoint str_contains (s sub : pystr) : bool :=
  str_startswith s sub ||
  match s with
  | [] => false
  | _ :: s' => str_contains s' sub
  end.

(** [x in l] for a list of strings. *)
Definition list_contains (l : list pystr) (x : pystr) : bool :=
  existsb (fun y => bool_decide (y = x)) l.

(** ** Exceptions and the state of a [HangMan] object *)

Inductive exn : Type :=
| ValueError (msg : pystr)
| IndexError.

Inductive result (A : Type) : Type :=
| Returns (a : A)
| Raises (e : exn).
Arguments Returns {A} a.
Arguments Raises {A} e.

Record HangMan : Type := mkHangMan {
  answer : pystr;
  hint : list pystr;
  wrong_guesses : Z;
  guessed_letters : gset pystr;
  consecutive_errors : Z
}.

Definition set_hint (h : list pystr) (g : HangMan) : HangMan :=
  mkHangMan (answer g) h (wrong_guesses g) (guessed_letters g)
            (consecutive_errors g).
Definition set_wrong_guesses (n : Z) (g : HangMan) : HangMan :=
  mkHangMan (answer g) (hint g) n (guessed_letters g) (consecutive_errors g).
Definition set_guessed_letters (s : gset pystr) (g : HangMan) : HangMan :=
  mkHangMan (answer g) (hint g) (wrong_guesses g) s (consecutive_errors g).
Definition set_consecutive_errors (n : Z) (g : HangMan) : HangMan :=
  mkHangMan (answer g) (hint g) (wrong_guesses g) (guessed_letters g) n.

(** A method body: it reads and mutates [self], and returns or raises.
    When it raises, the state is the one reached at the [raise]. *)
Definition M (A : Type) : Type := HangMan -> result A * HangMan.

Definition ret {A} (a : A) : M A := fun g => (Returns a, g).
Definition raise {A} (e : exn) : M A := fun g => (Raises e, g).
Definition bind {A B} (m : M A) (k : A -> M B) : M B :=
  fun g =>
    match m g with
    | (Returns a, g') => k a g'
    | (Raises e, g') => (Raises e, g')
    end.
Definition self : M HangMan := fun g => (Returns g, g).
Definition update (f : HangMan -> HangMan) : M unit :=
  fun g => (Returns tt, f g).

#[global] Instance M_ret : MRet M := @ret.
#[global] Instance M_bind : MBind M := fun A B k m => bind m k.

(** [for x in l: body x] *)
Fixpoint for_each {A} (l : list A) (body : A -> M unit) : M unit :=
  match l with
  | [] => ret tt
  | x :: l' => body x ;; for_each l' body
  end.

(** [s[i]] on a string: a one-character string, or [IndexError]. *)
Definition str_getitem (s : pystr) (i : nat) : M pystr :=
  match s !! i with
  | Some c => ret [c]
  | None => raise IndexError
  end.

(** [self.hint[i] = v] *)
Definition hint_setitem (i : nat) (v : pystr) : M unit :=
  fun g =>
    if (i <? length (hint g))%nat
    then (Returns tt, set_hint (<[i := v]> (hint g)) g)
    else (Raises IndexError, g).

(** [random.choice(seq)]: [seq[randbelow(len(seq))]], and [IndexError] on an
    empty sequence.  The draw of the generator is the argument [rnd],
    reduced below [len(seq)]. *)
Definition random_choice (rnd : nat) (seq : list nat) : M nat :=
  match seq with
  | [] => raise IndexError
  | _ :: _ =>
      match seq !! (rnd mod length seq)%nat with
      | Some i => ret i
      | None => raise IndexError
      end
  end.

(** The messages of the source. *)
Definition msg_one_letter : pystr :=
  lit "You must enter exactly one letter." ++ [10%N].
Definition msg_not_letter : pystr :=
  lit "You must enter a letter." ++ [10%N].
Definition msg_already (guess : pystr) : pystr :=
  [34%N] ++ guess ++ [34%N] ++ lit " was already guessed." ++ [10%N].
Definition msg_no_hint : pystr :=
  lit "No hint needed, you already know the word.".
Definition msg_hint (letter : pystr) : pystr :=
  lit "Hint: the letter '" ++ letter ++ lit "' is in the word." ++ [10%N].

(** ** The class [HangMan] *)

Section HangManClass.

(** [str.lower] and the alphabetic test of one code point. *)
Variable str_lower : pystr -> pystr.
Variable chr_isalpha : N -> bool.

(** [s.isalpha()]: at least one character, and all of them alphabetic. *)
Definition str_isalpha (s : pystr) : bool :=
  match s with
  | [] => false
  | _ :: _ => forallb chr_isalpha s
  end.

(** [HangMan(word)] *)
Definition HangMan_init (word : pystr) : result HangMan :=
  let answer := str_lower word in
  Returns
    {| answer := answer;
       hint := List.map (fun char => if negb (str_isalpha [char])
                                     then [char] else underscore) answer;
       wrong_guesses := 0;
       guessed_letters := ∅;
       consecutive_errors := 0 |}.

Definition validate_input (guess : pystr) : M pystr :=
  if negb (length guess =? 1)%nat then
    raise (ValueError msg_one_letter)
  else if negb (str_isalpha guess) then
    raise (ValueError msg_not_letter)
  else
    g ← self ;
    if decide (guess ∈ guessed_letters g) then
      raise (ValueError (msg_already guess))
    else ret guess.

Definition make_guess (guess : pystr) : M unit :=
  let guess := str_lower guess in
  guess ← validate_input guess ;
  update (fun g => set_guessed_letters ({[ guess ]} ∪ guessed_letters g) g) ;;
  g ← self ;
  if str_contains (answer g) guess then
    for_each (seq 0 (length (answer g)))
      (fun i =>
         g ← self ;
         a ← str_getitem (answer g) i ;
         if decide (a = guess) then hint_setitem i guess else ret tt) ;;
    update (set_consecutive_errors 0)
  else
    update (fun g => set_wrong_guesses (wrong_guesses g + 1) g) ;;
    update (fun g => set_consecutive_errors (consecutive_errors g + 1) g).

Definition give_hint (rnd : nat) : M pystr :=
  g ← self ;
  let unrevealed :=
    filter (fun i => hint g !! i = Some underscore)
           (seq 0 (length (hint g))) in
  if negb (list_contains (hint g) underscore) then
    ret msg_no_hint
  else
    index ← random_choice rnd unrevealed ;
    a ← str_getitem (answer g) index ;
    hint_setitem index a ;;
    update (set_consecutive_errors 0) ;;
    g ← self ;
    a ← str_getitem (answer g) index ;
    ret (msg_hint a).

End HangManClass.

(** ** ASCII *)

(** [str.isalpha] and [str.lower] on the code points below 128, where they
    are the letters A-Z and a-z and the shift of A-Z by 32.  On the other
    code points these definitions do nothing; they are used on ASCII text
    only. *)
Definition isupper_ascii (c : N) : bool := ((65 <=? c) && (c <=? 90))%N.
Definition isalpha_ascii (c : N) : bool :=
  isupper_ascii c || ((97 <=? c) && (c <=? 122))%N.
Definition lower_ascii (s : pystr) : pystr :=
  List.map (fun c => if isupper_ascii c then (c + 32)%N else c) s.

(** ** The caller: [main.py] *)

(** The dictionary [hangman] of [hangman.py]: one drawing per number of
    wrong guesses. *)
Definition figure (head body legs : string) : string * string * string :=
  (head, body, legs).

Definition hangman : gmap Z (string * string * string) :=
  list_to_map
    [ (0, figure "   " "   " "   ");
      (1, figure " o " "   " "   ");
      (2, figure " o " " | " "   ");
      (3, figure " o " "/| " "   ");
      (4, figure " o " "/|\" "   ");
      (5, figure " o " "/|\" "/  ");
      (6, figure " o " "/|\ " "/ \") ].

(** [len(hangman) - 1], the number of lives in [play_game] and
    [play_hangman]. *)
Definition max_mistakes : Z := Z.of_nat (size hangman) - 1.

(** [play_hangman], "Check for win condition": ["_" not in self.game.hint]. *)
Definition win_condition (g : HangMan) : bool :=
  negb (list_contains (hint g) underscore).

(** [play_hangman], "Check for lose condition":
    [self.game.wrong_guesses >= len(hangman) - 1]. *)
Definition lose_condition (g : HangMan) : bool :=
  (wrong_guesses g >=? max_mistakes).

(** ** The vocabulary of the properties *)

(** One pass of the loop of [make_guess] over the index [i]. *)
Definition reveal_at (ans guess : pystr) (h : list pystr) (i : nat)
  : list pystr :=
  match ans !! i with
  | Some c => if decide ([c] = guess) then <[i := guess]> h else h
  | None => h
  end.

(** The body of that loop, under a name. *)
Definition reveal_body (guess : pystr) (i : nat) : M unit :=
  g ← self ;
  a ← str_getitem (answer g) i ;
  if decide (a = guess) then hint_setitem i guess else ret tt.

(** The mask and the secret have one entry per position. *)
Definition consistent (g : HangMan) : Prop :=
  length (hint g) = length (answer g).

(** Every guessed character is shown wherever the secret has it. *)
Definition guessed_revealed (g : HangMan) : Prop :=
  forall (c : N) (i : nat),
    [c] ∈ guessed_letters g -> answer g !! i = Some c ->
    hint g !! i = Some [c].

(** The mask after the letter [c] has been shown at all its positions. *)
Definition reveal_all (c : N) (g : HangMan) : list pystr :=
  foldl (reveal_at (answer g) [c]) (hint g) (seq 0 (length (answer g))).

(** The state after an accepted guess of the letter [c]. *)
Definition after_guess (c : N) (g : HangMan) : HangMan :=
  if str_contains (answer g) [c] then
    mkHangMan (answer g) (reveal_all c g) (wrong_guesses g)
              ({[ [c] ]} ∪ guessed_letters g) 0
  else
    mkHangMan (answer g) (hint g) (wrong_guesses g + 1)
              ({[ [c] ]} ∪ guessed_letters g) (consecutive_errors g + 1).

(** The state after a hint has shown the character [c] at position [i]. *)
Definition after_hint (i : nat) (c : N) (g : HangMan) : HangMan :=
  set_consecutive_errors 0 (set_hint (<[i := [c]]> (hint g)) g).

(** The state of [HangMan("aa")]. *)
Definition game_aa : HangMan :=
  mkHangMan (lit "aa") [underscore; underscore] 0 ∅ 0.

(** The states of [HangMan("cat")] and [HangMan("_")]. *)
Definition game_cat : HangMan :=
  mkHangMan (lit "cat") [underscore; underscore; underscore] 0 ∅ 0.
Definition game_underscore : HangMan :=
  mkHangMan (lit "_") [underscore] 0 ∅ 0.

(** The states a game goes through: a new object, then calls of
    [make_guess] and [give_hint] in any order, and the assignment
    [self.game.consecutive_errors = 0] that [play_hangman] makes once a hint
    has been offered. *)
Inductive reachable (str_lower : pystr -> pystr) (chr_isalpha : N -> bool)
  : HangMan -> Prop :=
| reachable_init (word : pystr) (g : HangMan) :
    HangMan_init str_lower chr_isalpha word = Returns g ->
    reachable str_lower chr_isalpha g
| reachable_guess (input : pystr) (g : HangMan) :
    reachable str_lower chr_isalpha g ->
    reachable str_lower chr_isalpha
      (make_guess str_lower chr_isalpha input g).2
| reachable_hint (rnd : nat) (g : HangMan) :
    reachable str_lower chr_isalpha g ->
    reachable str_lower chr_isalpha (give_hint rnd g).2
| reachable_reset (g : HangMan) :
    reachable str_lower chr_isalpha g ->
    reachable str_lower chr_isalpha (set_consecutive_errors 0 g).

(** ** The rest of [hangman.py] *)

(** [sep.join(l)] *)
Fixpoint str_join (sep : pystr) (l : list pystr) : pystr :=
  match l with
  | [] => []
  | x :: l' =>
      match l' with
      | [] => x
      | _ :: _ => x ++ sep ++ str_join sep l'
      end
  end.

(** [HangMan.display_hint]: [" ".join(self.hint)]. *)
Definition display_hint (g : HangMan) : pystr :=
  str_join (lit " ") (hint g).

(** [HangMan.display_answer]: [" ".join(self.answer)]; the characters of a
    string are joined as one-character strings. *)
Definition display_answer (g : HangMan) : pystr :=
  str_join (lit " ") (List.map (fun c => [c]) (answer g)).

(** [display_hangman(stage)]: the seven lines of the gallows.  [None] is the
    [KeyError] of [hangman[stage]]. *)
Definition display_hangman (stage : Z) : option (list string) :=
  match hangman !! stage with
  | Some (head, body, legs) =>
      Some [ " +------+ "%string;
             " |      |"%string;
             String.append " |     " head;
             String.append " |     " body;
             String.append " |     " legs;
             " |     "%string;
             "_|_________"%string ]
  | None => None
  end.

(** The number of placeholders in a mask. *)
Definition placeholders (h : list pystr) : nat :=
  length (filter (fun x => x = underscore) h).

(** The guessed letters that do not occur in the secret. *)
Definition missed_letters (g : HangMan) : gset pystr :=
  filter (fun s => str_contains (answer g) s = false) (guessed_letters g).

(** ** The game screen of [main.py] *)

(** [str(n)] of an integer, as an f-string writes it. *)
Definition str_of_int (n : Z) : pystr :=
  lit (NilZero.string_of_int (Z.to_int n)).

(** [s * n] on a string. *)
Definition str_repeat (s : pystr) (n : nat) : pystr :=
  concat (replicate n s).

(** A message box that was shown: [messagebox.showinfo(title, message)], or
    [messagebox.askyesno(title, message)] with the answer it got. *)
Inductive dialog : Type :=
| ShowInfo (title message : pystr)
| AskYesNo (title message : pystr) (answer : bool).

(** What a method of the window does when it does not return: it lets an
    exception of the engine through, or fails on the unbound local [lines]
    of [display_hangman_on_canvas]. *)
Inductive app_exn : Type :=
| EngineError (e : exn)
| UnboundLocalError.

Inductive outcome : Type :=
| Done
| Crash (e : app_exn).

(** The attributes of [DisplayHangMann] that the game screen uses: the
    engine, the text in the entry, the texts of the two labels, the text
    items of the canvas ([x], [y], text), the state of the Guess button
    (normal or disabled), and the boxes shown so far, oldest first. *)
Record App : Type := mkApp {
  game : HangMan;
  entry_letter : pystr;
  guessed_word_label : pystr;
  lives_label : pystr;
  canvas : list (Z * Z * string);
  guess_button_enabled : bool;
  dialogs : list dialog
}.

Definition set_game (g : HangMan) (a : App) : App :=
  mkApp g (entry_letter a) (guessed_word_label a) (lives_label a)
        (canvas a) (guess_button_enabled a) (dialogs a).
Definition set_entry_letter (s : pystr) (a : App) : App :=
  mkApp (game a) s (guessed_word_label a) (lives_label a)
        (canvas a) (guess_button_enabled a) (dialogs a).
Definition set_guessed_word_label (s : pystr) (a : App) : App :=
  mkApp (game a) (entry_letter a) s (lives_label a)
        (canvas a) (guess_button_enabled a) (dialogs a).
Definition set_lives_label (s : pystr) (a : App) : App :=
  mkApp (game a) (entry_letter a) (guessed_word_label a) s
        (canvas a) (guess_button_enabled a) (dialogs a).
Definition set_canvas (c : list (Z * Z * string)) (a : App) : App :=
  mkApp (game a) (entry_letter a) (guessed_word_label a) (lives_label a)
        c (guess_button_enabled a) (dialogs a).
Definition set_guess_button_enabled (b : bool) (a : App) : App :=
  mkApp (game a) (entry_letter a) (guessed_word_label a) (lives_label a)
        (canvas a) b (dialogs a).
Definition show (d : dialog) (a : App) : App :=
  mkApp (game a) (entry_letter a) (guessed_word_label a) (lives_label a)
        (canvas a) (guess_button_enabled a) (dialogs a ++ [d]).

(** The loop of [display_hangman_on_canvas]: one text item per line, at
    [x = 30], from [y] downwards in steps of 18. *)
Fixpoint canvas_lines (y : Z) (lines : list string)
  : list (Z * Z * string) :=
  match lines with
  | [] => []
  | line :: rest => (30, y, line) :: canvas_lines (y + 18) rest
  end.

(** [display_hangman_on_canvas(stage)].  When [display_hangman] raises, the
    error is shown in a box and the loop then fails on [lines], which was
    never assigned. *)
Definition display_hangman_on_canvas (stage : Z) (a : App) : outcome * App :=
  let a := set_canvas [] a in
  match display_hangman stage with
  | Some lines =>
      (Done, set_canvas (canvas a ++ canvas_lines 10 lines) a)
  | None =>
      (Crash UnboundLocalError,
       show (ShowInfo (lit "Error") (str_of_int stage)) a)
  end.

Section GameScreen.

Variable str_lower : pystr -> pystr.
Variable chr_isalpha : N -> bool.

(** [play_game], from the point where the word has been obtained: the
    widgets of the game screen are created and the engine is built. *)
Definition play_game (word : pystr) : outcome * App :=
  let lives := lit "Lives Remaining: "
               ++ str_of_int (Z.of_nat (size hangman) - 1) in
  let label := str_repeat (lit "_ ") (length word) in
  match HangMan_init str_lower chr_isalpha word with
  | Raises e =>
      (Crash (EngineError e),
       mkApp (mkHangMan [] [] 0 ∅ 0) [] label lives [] true [])
  | Returns g =>
      display_hangman_on_canvas 0 (mkApp g [] label lives [] true [])
  end.

(** [play_hangman], the command of the Guess button.  [ask] is the answer
    the player gives if the hint question is asked, [rnd] the draw of the
    hint. *)
Definition play_hangman (ask : bool) (rnd : nat) (a : App) : outcome * App :=
  let guess := entry_letter a in
  let a := set_entry_letter [] a in
  match make_guess str_lower chr_isalpha guess (game a) with
  | (Raises (ValueError msg), g) =>
      (Done, show (ShowInfo (lit "Error") msg) (set_game g a))
  | (Raises e, g) => (Crash (EngineError e), set_game g a)
  | (Returns _, g) =>
      let a := set_game g a in
      let a := set_guessed_word_label (str_join (lit " ") (hint (game a))) a in
      let remaining_lives :=
        Z.of_nat (size hangman) - 1 - wrong_guesses (game a) in
      let a := set_lives_label
                 (lit "Lives Remaining: " ++ str_of_int remaining_lives) a in
      match display_hangman_on_canvas (wrong_guesses (game a)) a with
      | (Crash e, a) => (Crash e, a)
      | (Done, a) =>
          if win_condition (game a) then
            (Done,
             set_guess_button_enabled false
               (show (ShowInfo (lit "WIN") (lit "Congrats! You WON!")) a))
          else if lose_condition (game a) then
            (Done,
             set_guess_button_enabled false
               (show (ShowInfo (lit "LOSE")
                        (lit "You LOST! The word was " ++ answer (game a)))
                     a))
          else if (consecutive_errors (game a) =? 3) then
            let a := show (AskYesNo (lit "Hint") (lit "Do you want a hint?")
                                    ask) a in
            if ask then
              match give_hint rnd (game a) with
              | (Raises e, g) => (Crash (EngineError e), set_game g a)
              | (Returns hint_msg, g) =>
                  let a := set_game g a in
                  let a := show (ShowInfo (lit "Hint") hint_msg) a in
                  let a := set_guessed_word_label
                             (str_join (lit " ") (hint (game a))) a in
                  (Done, set_game (set_consecutive_errors 0 (game a)) a)
              end
            else
              (Done, set_game (set_consecutive_errors 0 (game a)) a)
          else (Done, a)
      end
  end.

(** The player types [text] into the entry. *)
Definition type_guess (text : pystr) (a : App) : App :=
  set_entry_letter text a.

(** The states of a game screen: after [play_game], then after each click
    on the Guess button with some text in the entry; a disabled button does
    not run its command. *)
Inductive session : App -> Prop :=
| session_play_game (word : pystr) :
    session (play_game word).2
| session_click (text : pystr) (ask : bool) (rnd : nat) (a : App) :
    session a -> guess_button_enabled a = true ->
    session (play_hangman ask rnd (type_guess text a)).2.

End GameScreen.

(** The number of times the hint question was asked. *)
Definition is_hint_offer (d : dialog) : bool :=
  match d with
  | AskYesNo _ _ _ => true
  | ShowInfo _ _ => false
  end.

Definition hint_offers (a : App) : nat :=
  length (List.filter is_hint_offer (dialogs a)).

(** The screen right after an accepted guess has been drawn: the entry is
    empty, the labels and the canvas show the engine [g]. *)
Definition refreshed (g : HangMan) (lines : list string) (a : App) : App :=
  mkApp g [] (str_join (lit " ") (hint g))
        (lit "Lives Remaining: "
         ++ str_of_int (Z.of_nat (size hangman) - 1 - wrong_guesses g))
        (canvas_lines 10 lines) (guess_button_enabled a) (dialogs a).

(** The screen shows the engine: the lives label and the canvas follow
    [wrong_guesses], and from the first accepted guess on the word label
    shows the mask. *)
Definition screen_in_step (a : App) : Prop :=
  lives_label a
  = lit "Lives Remaining: "
    ++ str_of_int (max_mistakes - wrong_guesses (game a)) /\
  (exists lines : list string,
     display_hangman (wrong_guesses (game a)) = Some lines /\
     canvas a = canvas_lines 10 lines) /\
  (guessed_letters (game a) <> ∅ ->
   guessed_word_label a = display_hint (game a)).

(** What holds of every state of a game screen. *)
Definition session_inv (str_lower : pystr -> pystr) (chr_isalpha : N -> bool)
           (a : App) : Prop :=
  reachable str_lower chr_isalpha (game a) /\
  wrong_guesses (game a) <= 6 /\
  (guess_button_enabled a = true ->
   wrong_guesses (game a) <= 5 /\ consecutive_errors (game a) <= 2) /\
  (guess_button_enabled a = false ->
   win_condition (game a) = true \/ lose_condition (game a) = true) /\
  (hint_offers a <= 1)%nat /\
  3 * Z.of_nat (hint_offers a) + consecutive_errors (game a)
  <= wrong_guesses (game a) /\
  screen_in_step a.

(** ** The word source of [api.py] *)

(** A value of an object of the service: a string or an integer. *)
Inductive json : Type :=
| JString (s : pystr)
| JNumber (n : Z).

#[global] Instance json_eq_dec : EqDecision json.
Proof. solve_decision. Defined.

(** An object of the decoded body: a [dict] with string keys, as its pairs
    in order; the keys of a [dict] are distinct. *)
Abbreviation item := (list (pystr * json)).

(** What [requests.get(url).json()] gives: the decoded body ([None] or a
    list of objects), a decoding error (a [ValueError]), or any other
    exception. *)
Inductive response : Type :=
| Json (body : option (list item))
| BadBody (msg : pystr)
| Failed (msg : pystr).

Inductive api_exn : Type :=
| ApiValueError (msg : pystr)
| ApiException (msg : pystr)
| ApiTypeError
| ApiKeyError (key : pystr)
| ApiIndexError.

Inductive api_result (A : Type) : Type :=
| ApiReturns (a : A)
| ApiRaises (e : api_exn).
Arguments ApiReturns {A} a.
Arguments ApiRaises {A} e.

Definition msg_no_combination : pystr :=
  [10%N] ++ lit "This combination does not exist. You can try again.".
Definition msg_unexpected : pystr := lit "Unexpected API error.".
Definition api_url : pystr :=
  lit "https://random-words-api.kushcreates.com/api".

(** [item[key]] *)
Fixpoint dict_getitem (d : item) (key : pystr) : api_result json :=
  match d with
  | [] => ApiRaises (ApiKeyError key)
  | (k, v) :: rest =>
      if decide (k = key) then ApiReturns v else dict_getitem rest key
  end.

(** The second [if] of the inner loop of [get_categories_languages]. *)
Definition scan_language (categories languages : list json)
           (key : pystr) (value : json) : list json * list json :=
  if decide (key = lit "language") then
    if decide (value ∈ languages) then (categories, languages)
    else (categories, languages ++ [value])
  else (categories, languages).

(** One pass of the inner loop, over the pair [key, value]; the [continue]
    of the first [if] skips the second one. *)
Definition scan_pair (acc : list json * list json) (kv : pystr * json)
  : list json * list json :=
  let '(categories, languages) := acc in
  let '(key, value) := kv in
  if decide (key = lit "category") then
    if decide (value ∈ categories) then (categories, languages)
    else scan_language (categories ++ [value]) languages key value
  else scan_language categories languages key value.

(** The two loops, from empty lists. *)
Definition scan_response (body : list item) : list json * list json :=
  fold_left (fun acc d => fold_left scan_pair d acc) body ([], []).

(** [words.append(item['word'])] for each item. *)
Fixpoint collect_words (body : list item) : api_result (list json) :=
  match body with
  | [] => ApiReturns []
  | d :: rest =>
      match dict_getitem d (lit "word") with
      | ApiRaises e => ApiRaises e
      | ApiReturns w =>
          match collect_words rest with
          | ApiRaises e => ApiRaises e
          | ApiReturns ws => ApiReturns (w :: ws)
          end
      end
  end.

Section WordSource.

(** The service. *)
Variable fetch : pystr -> response.

(** [get_categories_languages()]: the pair [languages, categories]. *)
Definition get_categories_languages : api_result (list json * list json) :=
  match fetch api_url with
  | Json (Some body) =>
      let '(categories, languages) := scan_response body in
      ApiReturns (languages, categories)
  | Json None => ApiRaises ApiTypeError
  | BadBody msg => ApiRaises (ApiValueError msg)
  | Failed msg => ApiRaises (ApiException msg)
  end.

(** [get_valid_response(url)] *)
Definition get_valid_response (url : pystr) : api_result (list item) :=
  match fetch url with
  | Json None => ApiRaises (ApiValueError msg_no_combination)
  | Json (Some body) => ApiReturns body
  | BadBody msg => ApiRaises (ApiValueError msg)
  | Failed msg => ApiRaises (ApiException msg)
  end.

(** [get_random_word(language, category)]; [rnd] is the draw of
    [random.choice]. *)
Definition get_random_word (rnd : nat) (language category : pystr)
  : api_result json :=
  let target := api_url ++ lit "?language=" ++ language
                ++ lit "&category=" ++ category in
  match get_valid_response target with
  | ApiRaises (ApiValueError msg) => ApiRaises (ApiValueError msg)
  | ApiRaises _ => ApiRaises (ApiException msg_unexpected)
  | ApiReturns body =>
      match collect_words body with
      | ApiRaises e => ApiRaises e
      | ApiReturns words =>
          match words with
          | [] => ApiRaises ApiIndexError
          | _ :: _ =>
              match words !! (rnd mod length words)%nat with
              | Some w => ApiReturns w
              | None => ApiRaises ApiIndexError
              end
          end
      end
  end.

End WordSource.

(** The title of a box. *)
Definition dialog_title (d : dialog) : pystr :=
  match d with
  | ShowInfo title _ => title
  | AskYesNo title _ _ => title
  end.

(** Each box titled "Hint" among [ds] is the hint question or an
    information box that names a character of [secret]. *)
Definition hint_boxes_name (secret : pystr) (ds : list dialog) : Prop :=
  forall d : dialog, d ∈ ds -> dialog_title d = lit "Hint" ->
    (exists b : bool,
       d = AskYesNo (lit "Hint") (lit "Do you want a hint?") b) \/
    (exists c : N, c ∈ secret /\ d = ShowInfo (lit "Hint") (msg_hint [c])).

(** ** Sample states *)

(** [HangMan("cat")] after the guess ["c"], [HangMan("a")] after the guess
    ["a"], the game screen of the word ["cat"], and a small body of the
    service. *)
Definition game_c : HangMan :=
  mkHangMan (lit "cat") [lit "c"; underscore; underscore] 0 {[ lit "c" ]} 0.
Definition game_a : HangMan :=
  mkHangMan (lit "a") [lit "a"] 0 {[ lit "a" ]} 0.
Definition screen_cat : App :=
  (play_game lower_ascii isalpha_ascii (lit "cat")).2.
Definition sample_item (w c l : string) : item :=
  [ (lit "word", JString (lit w)); (lit "length", JNumber 3);
    (lit "category", JString (lit c)); (lit "language", JString (lit l)) ].
Definition sample_body : list item :=
  [ sample_item "cat" "animals" "en"; sample_item "dog" "animals" "en";
    sample_item "kat" "animals" "nl" ].
Definition sample_fetch (url : pystr) : response :=
  Json (Some sample_body).

(** The game screen of ["cat"] after the wrong guesses ["x"], ["y"] and
    ["z"], the hint question answered with yes, and the draw 0. *)
Definition click_cat (text : string) (a : App) : App :=
  (play_hangman lower_ascii isalpha_ascii true 0
     (type_guess (lit text) a)).2.
Definition screen_hinted : App :=
  click_cat "z" (click_cat "y" (click_cat "x" screen_cat)).

(** ** Hidden letters *)

(** A placeholder as the specification defines it: position [i] of the
    secret holds a letter and the mask does not show it yet. *)
Definition hidden_letter (chr_isalpha : N -> bool) (g : HangMan) (i : nat)
  : Prop :=
  exists c : N,
    answer g !! i = Some c /\ chr_isalpha c = true /\
    hint g !! i = Some underscore.

(** [HangMan("_")] after the wrong guess ["z"], and [HangMan("a_")]. *)
Definition game_underscore_z : HangMan :=
  mkHangMan (lit "_") [underscore] 1 {[ lit "z" ]} 1.
Definition game_a_underscore : HangMan :=
  mkHangMan (lit "a_") [underscore; underscore] 0 ∅ 0.

(** * Properties *)

(** ** Strings and lists *)

Lemma str_contains_single (s : pystr) (c : N) :
  str_contains s [c] = true <-> c ∈ s.
Proof.
  induction s as [|b s IH]; simpl.
  - split; [discriminate | intros H; inversion H].
  - rewrite orb_true_iff, IH, elem_of_cons.
    destruct s; simpl; rewrite andb_true_r, N.eqb_eq;
      split; intros [->|H]; auto.
Qed.

Lemma list_contains_elem_of (l : list pystr) (x : pystr) :
  list_contains l x = true <-> x ∈ l.
Proof.
  unfold list_contains. rewrite existsb_exists. split.
  - intros (y & Hy & Heq). apply bool_decide_eq_true in Heq. subst.
    now apply list_elem_of_In.
  - intros H. exists x. split; [now apply list_elem_of_In|].
    now apply bool_decide_eq_true.
Qed.

(** ** Running a method *)

Lemma set_hint_same (g : HangMan) : set_hint (hint g) g = g.
Proof. now destruct g. Qed.

Ltac run :=
  unfold mbind, M_bind, bind, mret, M_ret, ret, raise, self, update; simpl.

Lemma length_reveal (ans guess : pystr) (l : list nat) (h : list pystr) :
  length (foldl (reveal_at ans guess) h l) = length h.
Proof.
  revert h. induction l as [|i l IH]; intros h; simpl; [reflexivity|].
  rewrite IH. unfold reveal_at.
  destruct (ans !! i); [|reflexivity].
  case_decide; [apply length_insert | reflexivity].
Qed.

Lemma for_each_cons {A} (x : A) (l : list A) (body : A -> M unit)
      (g : HangMan) :
  for_each (x :: l) body g
  = match body x g with
    | (Returns _, g') => for_each l body g'
    | (Raises e, g') => (Raises e, g')
    end.
Proof. reflexivity. Qed.

Lemma reveal_body_run (guess : pystr) (i : nat) (g : HangMan) :
  (i < length (answer g))%nat -> (i < length (hint g))%nat ->
  reveal_body guess i g
  = (Returns tt, set_hint (reveal_at (answer g) guess (hint g) i) g).
Proof.
  intros Ha Hh. apply lookup_lt_is_Some in Ha. destruct Ha as [c Hc].
  apply Nat.ltb_lt in Hh.
  unfold reveal_body, str_getitem, hint_setitem, reveal_at. run.
  rewrite Hc. run. case_decide.
  - now rewrite Hh.
  - now rewrite set_hint_same.
Qed.

Lemma for_each_reveal (guess : pystr) (l : list nat) (g : HangMan) :
  (forall i, i ∈ l ->
     (i < length (answer g))%nat /\ (i < length (hint g))%nat) ->
  for_each l (reveal_body guess) g
  = (Returns tt,
     set_hint (foldl (reveal_at (answer g) guess) (hint g) l) g).
Proof.
  revert g. induction l as [|i l IH]; intros g Hl.
  - simpl. now rewrite set_hint_same.
  - destruct (Hl i) as [Ha Hh]; [left|].
    rewrite for_each_cons, reveal_body_run by assumption.
    rewrite IH; [reflexivity|]. simpl. intros j Hj.
    assert (Hlen : length (reveal_at (answer g) guess (hint g) i)
                   = length (hint g)).
    { exact (length_reveal (answer g) guess [i] (hint g)). }
    rewrite Hlen. apply Hl. now right.
Qed.

Lemma lookup_reveal_hit (ans : pystr) (c : N) (l : list nat)
      (h : list pystr) (i : nat) :
  i ∈ l -> (i < length h)%nat -> ans !! i = Some c ->
  foldl (reveal_at ans [c]) h l !! i = Some [c].
Proof.
  revert h. induction l as [|j l IH]; intros h Hin Hlt Hc; [inversion Hin|].
  simpl. destruct (decide (i = j)) as [->|Hne].
  - assert (Hkeep : forall l' h', h' !! j = Some [c] ->
                      foldl (reveal_at ans [c]) h' l' !! j = Some [c]).
    { clear. induction l' as [|k l' IH']; intros h' Hh'; simpl; [exact Hh'|].
      apply IH'. unfold reveal_at. destruct (ans !! k); [|exact Hh'].
      case_decide; [|exact Hh'].
      destruct (decide (k = j)) as [->|Hkj].
      - apply list_lookup_insert_eq. now apply lookup_lt_Some in Hh'.
      - now rewrite list_lookup_insert_ne. }
    apply Hkeep. unfold reveal_at. rewrite Hc.
    rewrite decide_True by reflexivity.
    now apply list_lookup_insert_eq.
  - apply IH; [| |exact Hc].
    + apply elem_of_cons in Hin. destruct Hin; [contradiction|assumption].
    + unfold reveal_at. destruct (ans !! j); [|exact Hlt].
      case_decide; [now rewrite length_insert | exact Hlt].
Qed.

Lemma lookup_reveal_miss (ans guess : pystr) (l : list nat)
      (h : list pystr) (i : nat) :
  (forall c, ans !! i = Some c -> [c] <> guess) ->
  foldl (reveal_at ans guess) h l !! i = h !! i.
Proof.
  intros Hmiss. revert h.
  induction l as [|j l IH]; intros h; simpl; [reflexivity|].
  rewrite IH. unfold reveal_at.
  destruct (ans !! j) as [c|] eqn:Hj; [|reflexivity].
  case_decide as Hg; [|reflexivity].
  destruct (decide (j = i)) as [->|Hne].
  - exfalso. exact (Hmiss c Hj Hg).
  - now rewrite list_lookup_insert_ne.
Qed.

(** ** The engine *)

Lemma lookup_reveal_all_hit (c : N) (g : HangMan) (i : nat) :
  consistent g -> answer g !! i = Some c ->
  reveal_all c g !! i = Some [c].
Proof.
  intros Hc Hi. unfold reveal_all.
  pose proof (lookup_lt_Some _ _ _ Hi) as Hlt.
  apply lookup_reveal_hit; [|now rewrite Hc|exact Hi].
  apply elem_of_seq. lia.
Qed.

Lemma lookup_reveal_all_miss (c : N) (g : HangMan) (i : nat) :
  answer g !! i <> Some c -> reveal_all c g !! i = hint g !! i.
Proof.
  intros Hi. apply lookup_reveal_miss. intros c' Hc' Heq.
  apply Hi. congruence.
Qed.

Section Engine.

Variable str_lower : pystr -> pystr.
Variable chr_isalpha : N -> bool.

Local Abbreviation HangMan_init := (HangMan_init str_lower chr_isalpha).
Local Abbreviation validate_input := (validate_input chr_isalpha).
Local Abbreviation make_guess := (make_guess str_lower chr_isalpha).

(** *** Validation *)

Lemma validate_input_length (guess : pystr) (g : HangMan) :
  length guess <> 1%nat ->
  validate_input guess g = (Raises (ValueError msg_one_letter), g).
Proof.
  intros H. unfold validate_input.
  destruct (Nat.eqb_spec (length guess) 1) as [E|E]; [contradiction|].
  reflexivity.
Qed.

Lemma validate_input_not_letter (c : N) (g : HangMan) :
  chr_isalpha c = false ->
  validate_input [c] g = (Raises (ValueError msg_not_letter), g).
Proof. intros H. unfold validate_input. simpl. now rewrite H. Qed.

Lemma validate_input_already (c : N) (g : HangMan) :
  chr_isalpha c = true -> [c] ∈ guessed_letters g ->
  validate_input [c] g = (Raises (ValueError (msg_already [c])), g).
Proof.
  intros Ha Hin. unfold validate_input. simpl. rewrite Ha. run.
  now rewrite decide_True.
Qed.

Lemma validate_input_ok (c : N) (g : HangMan) :
  chr_isalpha c = true -> [c] ∉ guessed_letters g ->
  validate_input [c] g = (Returns [c], g).
Proof.
  intros Ha Hin. unfold validate_input. simpl. rewrite Ha. run.
  now rewrite decide_False.
Qed.

(** A guess is rejected exactly as its lowercase form is, and the state is
    the one before the call. *)
Lemma make_guess_rejected (input : pystr) (g : HangMan) (e : exn) :
  validate_input (str_lower input) g = (Raises e, g) ->
  make_guess input g = (Raises e, g).
Proof. intros H. unfold make_guess. run. now rewrite H. Qed.

(** An accepted guess. *)
Lemma make_guess_accepted (input : pystr) (c : N) (g : HangMan) :
  consistent g -> str_lower input = [c] ->
  chr_isalpha c = true -> [c] ∉ guessed_letters g ->
  make_guess input g = (Returns tt, after_guess c g).
Proof.
  intros Hc Hlow Ha Hnew. unfold make_guess, after_guess. run.
  rewrite Hlow, validate_input_ok by assumption. simpl.
  destruct (str_contains (answer g) [c]); [|reflexivity].
  change (λ i : nat, _) with (reveal_body [c]).
  rewrite for_each_reveal; [reflexivity|].
  simpl. intros i Hi. apply elem_of_seq in Hi. rewrite Hc. lia.
Qed.

(** *** Guesses *)

(** C1.  A valid guess: an input whose lowercase form is one alphabetic
    character [c] that has not been guessed; the input [c] itself is one
    when [c] is a lowercase letter.  [make_guess] returns, [c] is added to
    [guessed_letters] and the secret is untouched.  If [c] occurs in the
    secret, the mask shows [c] at every position where the secret has it and
    is unchanged elsewhere, [consecutive_errors] is 0 and [wrong_guesses] is
    unchanged.  Otherwise the mask is unchanged and both counters grow by
    exactly 1. *)
Theorem make_guess_valid (input : pystr) (c : N) (g : HangMan) :
  consistent g ->
  str_lower input = [c] -> chr_isalpha c = true ->
  [c] ∉ guessed_letters g ->
  exists g' : HangMan,
    make_guess input g = (Returns tt, g') /\
    answer g' = answer g /\
    guessed_letters g' = {[ [c] ]} ∪ guessed_letters g /\
    [c] ∈ guessed_letters g' /\
    (c ∈ answer g ->
       (forall i, answer g !! i = Some c -> hint g' !! i = Some [c]) /\
       (forall i, answer g !! i <> Some c -> hint g' !! i = hint g !! i) /\
       consecutive_errors g' = 0 /\
       wrong_guesses g' = wrong_guesses g) /\
    (c ∉ answer g ->
       hint g' = hint g /\
       wrong_guesses g' = wrong_guesses g + 1 /\
       consecutive_errors g' = consecutive_errors g + 1).
Proof.
  intros Hc Hlow Ha Hnew. exists (after_guess c g).
  split; [now apply make_guess_accepted|].
  unfold after_guess.
  destruct (str_contains (answer g) [c]) eqn:Hin; simpl.
  - apply str_contains_single in Hin.
    repeat split; try reflexivity; try set_solver.
    + intros i Hi. now apply lookup_reveal_all_hit.
    + intros i Hi. now apply lookup_reveal_all_miss.
  - assert (Hout : c ∉ answer g).
    { intros H. apply str_contains_single in H. congruence. }
    repeat split; try reflexivity; try set_solver.
Qed.

(** What the proof of C2 uses of [str.lower]: the empty string stays empty,
    no character is dropped, and a character that is not alphabetic becomes
    one character that is not alphabetic. *)
Hypothesis lower_empty : str_lower [] = [].
Hypothesis lower_length :
  forall s : pystr, (length s <= length (str_lower s))%nat.
Hypothesis lower_nonalpha :
  forall c : N, chr_isalpha c = false ->
    exists c' : N, str_lower [c] = [c'] /\ chr_isalpha c' = false.

(** C2.  The checks of a guess, in their order.  An input that is not
    exactly one character is rejected with the message of the length check,
    whatever else holds of it; one character that is not alphabetic is
    rejected with the message of the letter check, whether or not it was
    guessed; an input whose lowercase form is a letter already in
    [guessed_letters] is rejected with the third message.  The three
    [ValueError]s differ, and each leaves the state as it was. *)
Theorem make_guess_validation (input : pystr) (g : HangMan) :
  (length input <> 1%nat ->
     make_guess input g = (Raises (ValueError msg_one_letter), g)) /\
  (forall c : N, input = [c] -> chr_isalpha c = false ->
     make_guess input g = (Raises (ValueError msg_not_letter), g)) /\
  (forall c : N, str_lower input = [c] -> chr_isalpha c = true ->
     [c] ∈ guessed_letters g ->
     make_guess input g = (Raises (ValueError (msg_already [c])), g)) /\
  msg_one_letter <> msg_not_letter /\
  (forall s : pystr,
     msg_already s <> msg_one_letter /\ msg_already s <> msg_not_letter).
Proof.
  repeat split.
  - intros Hlen. apply make_guess_rejected, validate_input_length.
    destruct input as [|a [|b input]]; simpl in Hlen.
    + now rewrite lower_empty.
    + contradiction.
    + pose proof (lower_length (a :: b :: input)) as H. simpl in H. lia.
  - intros c -> Hc. destruct (lower_nonalpha c Hc) as (c' & Hlow & Hc').
    apply make_guess_rejected. rewrite Hlow.
    now apply validate_input_not_letter.
  - intros c Hlow Hc Hin. apply make_guess_rejected. rewrite Hlow.
    now apply validate_input_already.
  - discriminate.
  - discriminate.
  - discriminate.
Qed.

End Engine.

(** *** Hints *)

Lemma elem_of_unrevealed (h : list pystr) (i : nat) :
  i ∈ filter (fun i => h !! i = Some underscore) (seq 0 (length h))
  <-> h !! i = Some underscore.
Proof.
  rewrite list_elem_of_filter, elem_of_seq. split; [now intros [H _]|].
  intros H. split; [exact H|]. apply lookup_lt_Some in H. lia.
Qed.

Lemma random_choice_elem_of (rnd : nat) (l : list nat) :
  l <> [] ->
  exists i : nat, i ∈ l /\ forall g, random_choice rnd l g = (Returns i, g).
Proof.
  intros Hne. destruct l as [|a l]; [contradiction|].
  unfold random_choice.
  assert (Hlt : (rnd mod length (a :: l) < length (a :: l))%nat).
  { apply Nat.mod_upper_bound. discriminate. }
  apply lookup_lt_is_Some in Hlt. destruct Hlt as [i Hi].
  exists i. rewrite Hi. split; [|reflexivity].
  eapply list_elem_of_lookup_2, Hi.
Qed.

(** Every placeholder position can be drawn. *)
Lemma random_choice_any (l : list nat) (i : nat) :
  i ∈ l -> exists rnd : nat, forall g, random_choice rnd l g = (Returns i, g).
Proof.
  intros Hin. apply list_elem_of_lookup in Hin. destruct Hin as [k Hk].
  exists k. pose proof (lookup_lt_Some _ _ _ Hk) as Hlt.
  destruct l as [|a l]; [inversion Hk|].
  unfold random_choice. rewrite Nat.mod_small by exact Hlt.
  now rewrite Hk.
Qed.

Lemma give_hint_no_placeholder (rnd : nat) (g : HangMan) :
  underscore ∉ hint g -> give_hint rnd g = (Returns msg_no_hint, g).
Proof.
  intros H. unfold give_hint. run.
  destruct (list_contains (hint g) underscore) eqn:E; [|reflexivity].
  apply list_contains_elem_of in E. contradiction.
Qed.

Lemma give_hint_at (rnd i : nat) (c : N) (g : HangMan) :
  underscore ∈ hint g ->
  (forall g', random_choice rnd
     (filter (fun i => hint g !! i = Some underscore)
             (seq 0 (length (hint g)))) g' = (Returns i, g')) ->
  hint g !! i = Some underscore -> answer g !! i = Some c ->
  give_hint rnd g = (Returns (msg_hint [c]), after_hint i c g).
Proof.
  intros Hin Hrnd Hi Hc. unfold give_hint. run.
  apply list_contains_elem_of in Hin. rewrite Hin. simpl.
  rewrite Hrnd. unfold str_getitem, hint_setitem. rewrite Hc. run.
  apply lookup_lt_Some in Hi. apply Nat.ltb_lt in Hi. rewrite Hi. simpl.
  now rewrite Hc.
Qed.

Lemma give_hint_reveals (rnd : nat) (g : HangMan) :
  consistent g -> underscore ∈ hint g ->
  exists (i : nat) (c : N),
    hint g !! i = Some underscore /\ answer g !! i = Some c /\
    give_hint rnd g = (Returns (msg_hint [c]), after_hint i c g).
Proof.
  intros Hc Hin.
  destruct (random_choice_elem_of rnd
              (filter (fun i => hint g !! i = Some underscore)
                      (seq 0 (length (hint g))))) as (i & Hi & Hrnd).
  { apply list_elem_of_lookup in Hin. destruct Hin as [k Hk].
    apply elem_of_unrevealed in Hk. intros E. rewrite E in Hk.
    inversion Hk. }
  apply elem_of_unrevealed in Hi.
  assert (Hlt : (i < length (answer g))%nat).
  { rewrite <- Hc. eapply lookup_lt_Some, Hi. }
  apply lookup_lt_is_Some in Hlt. destruct Hlt as [c Hci].
  exists i, c. repeat split; [exact Hi|exact Hci|].
  now apply give_hint_at.
Qed.

(** Each placeholder position is the one revealed for some draw. *)
Lemma give_hint_any_position (i : nat) (g : HangMan) :
  consistent g -> hint g !! i = Some underscore ->
  exists (rnd : nat) (c : N),
    answer g !! i = Some c /\
    give_hint rnd g = (Returns (msg_hint [c]), after_hint i c g).
Proof.
  intros Hc Hi.
  assert (Hlt : (i < length (answer g))%nat).
  { rewrite <- Hc. eapply lookup_lt_Some, Hi. }
  apply lookup_lt_is_Some in Hlt. destruct Hlt as [c Hci].
  destruct (random_choice_any
              (filter (fun i => hint g !! i = Some underscore)
                      (seq 0 (length (hint g)))) i) as [rnd Hrnd].
  { now apply elem_of_unrevealed. }
  exists rnd, c. split; [exact Hci|].
  apply give_hint_at; try assumption.
  eapply list_elem_of_lookup_2, Hi.
Qed.

Lemma give_hint_wrong_guesses (rnd : nat) (g : HangMan) :
  wrong_guesses (give_hint rnd g).2 = wrong_guesses g.
Proof.
  unfold give_hint, str_getitem, hint_setitem. run.
  destruct (list_contains (hint g) underscore); [|reflexivity]. simpl.
  match goal with |- context [random_choice rnd ?l g] =>
    assert (Hst : (random_choice rnd l g).2 = g) end.
  { unfold random_choice. repeat case_match; reflexivity. }
  match goal with |- context [random_choice rnd ?l g] =>
    destruct (random_choice rnd l g) as [[i|e] g'] end;
    simpl in Hst; subst g'; [|reflexivity].
  destruct (answer g !! i) as [c|]; run; [|reflexivity].
  destruct (i <? length (hint g))%nat; simpl; [|reflexivity].
  destruct (answer g !! i); reflexivity.
Qed.

(** [give_hint] when a placeholder is read as any entry of the mask equal to
    ["_"]: it never changes [wrong_guesses]; if such an entry is left, it
    picks a position [i] among those that hold one and writes the secret's
    character of position [i] there, [consecutive_errors] becomes 0, the
    secret and the guessed letters stay; if none is left, it returns the
    "no hint needed" message and the state is the same. *)
Theorem give_hint_spec (rnd : nat) (g : HangMan) :
  consistent g ->
  wrong_guesses (give_hint rnd g).2 = wrong_guesses g /\
  (underscore ∈ hint g ->
     exists (i : nat) (c : N),
       hint g !! i = Some underscore /\ answer g !! i = Some c /\
       hint (give_hint rnd g).2 = <[i := [c]]> (hint g) /\
       consecutive_errors (give_hint rnd g).2 = 0 /\
       answer (give_hint rnd g).2 = answer g /\
       guessed_letters (give_hint rnd g).2 = guessed_letters g) /\
  (underscore ∉ hint g ->
     give_hint rnd g = (Returns msg_no_hint, g)).
Proof.
  intros Hc. split; [apply give_hint_wrong_guesses|]. split.
  - intros Hin.
    destruct (give_hint_reveals rnd g Hc Hin) as (i & c & Hi & Hci & Hrun).
    exists i, c. rewrite Hrun. simpl. repeat split; assumption.
  - apply give_hint_no_placeholder.
Qed.



(** *** Winning and losing *)

(** The two tests of [play_hangman] as they are written: the win test
    holds exactly when no entry of the mask equals ["_"], and the lose test
    exactly when [wrong_guesses] has reached [len(hangman) - 1], which
    is 6. *)
Theorem win_lose_conditions (g : HangMan) :
  (win_condition g = true <-> forall i, hint g !! i <> Some underscore) /\
  (lose_condition g = true <-> wrong_guesses g >= max_mistakes) /\
  max_mistakes = 6.
Proof.
  repeat split.
  - unfold win_condition. intros H i Hi.
    apply negb_true_iff in H.
    assert (Hin : list_contains (hint g) underscore = true).
    { apply list_contains_elem_of. eapply list_elem_of_lookup_2, Hi. }
    congruence.
  - intros H. unfold win_condition. apply negb_true_iff.
    destruct (list_contains (hint g) underscore) eqn:E; [|reflexivity].
    apply list_contains_elem_of, list_elem_of_lookup in E.
    destruct E as [i Hi]. now apply H in Hi.
  - unfold lose_condition. intros H. apply Z.geb_le in H. lia.
  - unfold lose_condition. intros H. apply Z.geb_le. lia.
Qed.

(** *** Construction and the invariant *)

Section Construction.

Variable str_lower : pystr -> pystr.
Variable chr_isalpha : N -> bool.

Local Abbreviation HangMan_init := (HangMan_init str_lower chr_isalpha).

(** C5 (as the code has it).  [HangMan(word)] takes the secret alone and
    never fails: for every secret, the empty one included, it returns an
    object.  The bound on mistakes is not an argument of the constructor:
    the lose test compares [wrong_guesses] with the constant 6 for every
    game. *)
Theorem init_total (word : pystr) :
  (exists g : HangMan, HangMan_init word = Returns g) /\
  (forall g : HangMan, lose_condition g = true <-> 6 <= wrong_guesses g).
Proof.
  split; [eexists; reflexivity|].
  intros g. unfold lose_condition. rewrite Z.geb_le. reflexivity.
Qed.

(** C6.  [HangMan(word)] stores the lowercase secret and a mask of the same
    length that holds a placeholder where the secret is alphabetic and the
    secret's own character elsewhere; no letter is guessed and both counters
    are 0. *)
Theorem init_spec (word : pystr) :
  exists g : HangMan,
    HangMan_init word = Returns g /\
    answer g = str_lower word /\
    length (hint g) = length (answer g) /\
    (forall (i : nat) (c : N), answer g !! i = Some c ->
       hint g !! i = Some (if chr_isalpha c then underscore else [c])) /\
    guessed_letters g = ∅ /\
    wrong_guesses g = 0 /\
    consecutive_errors g = 0.
Proof.
  eexists. split; [reflexivity|]. simpl.
  repeat split; [apply length_map|].
  intros i c Hi. rewrite list_lookup_fmap, Hi. simpl.
  rewrite andb_true_r. now destruct (chr_isalpha c).
Qed.

End Construction.

Section Invariant.

Variable str_lower : pystr -> pystr.
Variable chr_isalpha : N -> bool.

Local Abbreviation HangMan_init := (HangMan_init str_lower chr_isalpha).
Local Abbreviation validate_input := (validate_input chr_isalpha).
Local Abbreviation make_guess := (make_guess str_lower chr_isalpha).

(** A guess is either rejected, with the state as it was, or accepted. *)
Lemma make_guess_cases (input : pystr) (g : HangMan) :
  consistent g ->
  (exists e : exn, make_guess input g = (Raises e, g)) \/
  (exists c : N,
     str_lower input = [c] /\ chr_isalpha c = true /\
     ([c] ∉ guessed_letters g) /\
     make_guess input g = (Returns tt, after_guess c g)).
Proof.
  intros Hc. destruct (str_lower input) as [|c [|b rest]] eqn:Hlow.
  - left. eexists. apply make_guess_rejected. rewrite Hlow.
    now apply validate_input_length.
  - destruct (chr_isalpha c) eqn:Ha.
    + destruct (decide ([c] ∈ guessed_letters g)) as [Hin|Hin].
      * left. eexists. apply make_guess_rejected. rewrite Hlow.
        now apply validate_input_already.
      * right. exists c. repeat split; try assumption.
        now apply make_guess_accepted.
    + left. eexists. apply make_guess_rejected. rewrite Hlow.
      now apply validate_input_not_letter.
  - left. eexists. apply make_guess_rejected. rewrite Hlow.
    now apply validate_input_length.
Qed.

Lemma give_hint_cases (rnd : nat) (g : HangMan) :
  consistent g ->
  give_hint rnd g = (Returns msg_no_hint, g) \/
  (exists (i : nat) (c : N),
     hint g !! i = Some underscore /\ answer g !! i = Some c /\
     give_hint rnd g = (Returns (msg_hint [c]), after_hint i c g)).
Proof.
  intros Hc. destruct (decide (underscore ∈ hint g)) as [Hin|Hin].
  - right. now apply give_hint_reveals.
  - left. now apply give_hint_no_placeholder.
Qed.

Lemma consistent_after_guess (c : N) (g : HangMan) :
  consistent g -> consistent (after_guess c g).
Proof.
  unfold consistent, after_guess. intros Hc.
  destruct (str_contains (answer g) [c]); simpl; [|exact Hc].
  unfold reveal_all. now rewrite length_reveal.
Qed.

Lemma consistent_after_hint (i : nat) (c : N) (g : HangMan) :
  consistent g -> consistent (after_hint i c g).
Proof. unfold consistent. simpl. now rewrite length_insert. Qed.

Lemma guessed_revealed_after_guess (c : N) (g : HangMan) :
  consistent g -> guessed_revealed g -> guessed_revealed (after_guess c g).
Proof.
  intros Hc Hinv c' i. unfold after_guess.
  destruct (str_contains (answer g) [c]) eqn:Hin; simpl; intros Hg Hi.
  - destruct (decide (c' = c)) as [->|Hne].
    + now apply lookup_reveal_all_hit.
    + rewrite lookup_reveal_all_miss by congruence.
      apply Hinv; [|exact Hi].
      apply elem_of_union in Hg as [Hg|Hg]; [|exact Hg].
      apply elem_of_singleton in Hg. congruence.
  - destruct (decide (c' = c)) as [->|Hne].
    + apply list_elem_of_lookup_2, str_contains_single in Hi. congruence.
    + apply Hinv; [|exact Hi].
      apply elem_of_union in Hg as [Hg|Hg]; [|exact Hg].
      apply elem_of_singleton in Hg. congruence.
Qed.

Lemma guessed_revealed_after_hint (i : nat) (c : N) (g : HangMan) :
  hint g !! i = Some underscore -> answer g !! i = Some c ->
  guessed_revealed g -> guessed_revealed (after_hint i c g).
Proof.
  intros Hi Hci Hinv c' j. simpl. intros Hg Hj.
  destruct (decide (i = j)) as [->|Hne].
  - rewrite list_lookup_insert_eq by (eapply lookup_lt_Some, Hi).
    congruence.
  - rewrite list_lookup_insert_ne by exact Hne. now apply Hinv.
Qed.

Lemma answer_after_guess (c : N) (g : HangMan) :
  answer (after_guess c g) = answer g.
Proof. unfold after_guess. now destruct (str_contains (answer g) [c]). Qed.

(** Every state of a game has a mask as long as its secret, shows its
    guessed letters, and has the lowercase form of some word as secret. *)
Lemma reachable_invariant (g : HangMan) :
  reachable str_lower chr_isalpha g ->
  consistent g /\ guessed_revealed g /\
  exists word : pystr, answer g = str_lower word.
Proof.
  induction 1 as [word g Hinit|input g Hr (Hc & Hinv & Hw)
                 |rnd g Hr (Hc & Hinv & Hw)|g Hr IH].
  - injection Hinit as <-. repeat split.
    + unfold consistent. simpl. apply length_map.
    + intros c i Hg. simpl in Hg. now apply not_elem_of_empty in Hg.
    + now exists word.
  - destruct (make_guess_cases input g Hc)
      as [[e ->]|(c & _ & _ & _ & ->)]; simpl; [now repeat split|].
    split; [now apply consistent_after_guess|].
    split; [now apply guessed_revealed_after_guess|].
    now rewrite answer_after_guess.
  - destruct (give_hint_cases rnd g Hc)
      as [->|(i & c & Hi & Hci & ->)]; simpl; [now repeat split|].
    split; [now apply consistent_after_hint|].
    split; [now apply guessed_revealed_after_hint|exact Hw].
  - exact IH.
Qed.

(** C7.  Every character of [guessed_letters] is shown in the mask at every
    position where the secret has it.  This holds of a new object, and a
    call of [make_guess] (whatever the input, accepted or rejected) or of
    [give_hint] (whatever the draw) keeps it, together with the equal length
    of mask and secret. *)
Theorem guessed_revealed_invariant :
  (forall (word : pystr) (g : HangMan),
     HangMan_init word = Returns g -> consistent g /\ guessed_revealed g) /\
  (forall g : HangMan,
     consistent g -> guessed_revealed g ->
     (forall input : pystr,
        consistent (make_guess input g).2 /\
        guessed_revealed (make_guess input g).2) /\
     (forall rnd : nat,
        consistent (give_hint rnd g).2 /\
        guessed_revealed (give_hint rnd g).2)).
Proof.
  split.
  - intros word g [= <-]. split.
    + unfold consistent. simpl. apply length_map.
    + intros c i Hg. simpl in Hg. set_solver.
  - intros g Hc Hinv. split.
    + intros input.
      destruct (make_guess_cases input g Hc)
        as [[e ->]|(c & _ & _ & _ & ->)]; simpl.
      * now split.
      * split; [now apply consistent_after_guess|].
        now apply guessed_revealed_after_guess.
    + intros rnd.
      destruct (give_hint_cases rnd g Hc)
        as [->|(i & c & Hi & Hci & ->)]; simpl.
      * now split.
      * split; [now apply consistent_after_hint|].
        now apply guessed_revealed_after_hint.
Qed.

End Invariant.

(** *** A hinted letter can still be guessed *)

Section HintThenGuess.

Variable str_lower : pystr -> pystr.
Variable chr_isalpha : N -> bool.

Local Abbreviation HangMan_init := (HangMan_init str_lower chr_isalpha).
Local Abbreviation make_guess := (make_guess str_lower chr_isalpha).

(** The underscore is not a letter. *)
Hypothesis underscore_not_alpha : chr_isalpha 95%N = false.

(** [give_hint] does not record the letter it shows.  When the character [c]
    it has shown is a letter (in lowercase, as the stored secret is), a
    guess of [c] right after is accepted, counts as correct, and shows [c]
    wherever the secret has it. *)
Lemma hinted_letter_accepted (i : nat) (c : N) (g : HangMan) :
  consistent g -> guessed_revealed g ->
  hint g !! i = Some underscore -> answer g !! i = Some c ->
  chr_isalpha c = true -> str_lower [c] = [c] ->
  let g1 := after_hint i c g in
  guessed_letters g1 = guessed_letters g /\
  ([c] ∉ guessed_letters g1) /\
  exists g2 : HangMan,
    make_guess [c] g1 = (Returns tt, g2) /\
    (forall j, answer g !! j = Some c -> hint g2 !! j = Some [c]) /\
    wrong_guesses g2 = wrong_guesses g /\
    consecutive_errors g2 = 0.
Proof.
  intros Hc Hinv Hi Hci Ha Hlow g1.
  assert (Hnew : [c] ∉ guessed_letters g).
  { intros Hin. pose proof (Hinv c i Hin Hci) as H. rewrite Hi in H.
    injection H as H. rewrite <- H in Ha. congruence. }
  assert (Hc1 : consistent g1) by now apply consistent_after_hint.
  split; [reflexivity|]. split; [exact Hnew|].
  exists (after_guess c g1). split; [now apply make_guess_accepted|].
  assert (Hin : str_contains (answer g1) [c] = true).
  { apply str_contains_single. eapply list_elem_of_lookup_2, Hci. }
  unfold after_guess. rewrite Hin. simpl. repeat split.
  intros j Hj. now apply lookup_reveal_all_hit.
Qed.

(** No character of a lowercase string is changed by [str.lower]. *)
Hypothesis lower_fixed :
  forall (s : pystr) (c : N), c ∈ str_lower s -> str_lower [c] = [c].

(** The same in a game: whenever a hint shows a letter, the guess of that
    letter right after is accepted and correct. *)
Lemma reachable_hinted_letter_accepted (rnd : nat) (g : HangMan) :
  reachable str_lower chr_isalpha g -> underscore ∈ hint g ->
  exists (i : nat) (c : N),
    hint g !! i = Some underscore /\ answer g !! i = Some c /\
    give_hint rnd g = (Returns (msg_hint [c]), after_hint i c g) /\
    (chr_isalpha c = true ->
       ([c] ∉ guessed_letters (after_hint i c g)) /\
       exists g2 : HangMan,
         make_guess [c] (after_hint i c g) = (Returns tt, g2) /\
         (forall j, answer g !! j = Some c -> hint g2 !! j = Some [c]) /\
         wrong_guesses g2 = wrong_guesses g /\
         consecutive_errors g2 = 0).
Proof.
  intros Hr Hin.
  destruct (reachable_invariant _ _ _ Hr) as (Hc & Hinv & word & Hw).
  destruct (give_hint_reveals rnd g Hc Hin) as (i & c & Hi & Hci & Hrun).
  exists i, c. split; [exact Hi|]. split; [exact Hci|].
  split; [exact Hrun|]. intros Ha.
  apply (hinted_letter_accepted i c g); try assumption.
  apply (lower_fixed word). rewrite <- Hw.
  eapply list_elem_of_lookup_2, Hci.
Qed.

(** A secret without letters and without underscores is won from the start,
    and a hint on it is refused without any change. *)
Lemma secret_without_letters_won (word : pystr) :
  (forall c : N, c ∈ str_lower word ->
     chr_isalpha c = false /\ c <> 95%N) ->
  exists g : HangMan,
    HangMan_init word = Returns g /\
    hint g = List.map (fun c => [c]) (answer g) /\
    win_condition g = true /\
    forall rnd : nat, give_hint rnd g = (Returns msg_no_hint, g).
Proof.
  intros Hno. eexists. split; [reflexivity|]. cbn [hint answer].
  assert (Hmask : List.map
            (fun char => if negb (str_isalpha chr_isalpha [char])
                         then [char] else underscore) (str_lower word)
          = List.map (fun c => [c]) (str_lower word)).
  { apply map_ext_in. intros c Hin. apply list_elem_of_In in Hin.
    destruct (Hno c Hin) as [Ha _]. simpl. now rewrite Ha. }
  rewrite Hmask.
  assert (Hout : underscore ∉ List.map (fun c => [c]) (str_lower word)).
  { intros Hin. apply list_elem_of_In, in_map_iff in Hin.
    destruct Hin as (c & Heq & Hin). apply list_elem_of_In in Hin.
    destruct (Hno c Hin) as [_ Hne]. unfold underscore in Heq. congruence. }
  repeat split.
  - unfold win_condition. cbn [hint]. apply negb_true_iff.
    destruct (list_contains _ underscore) eqn:E; [|reflexivity].
    apply list_contains_elem_of in E. contradiction.
  - intros rnd. now apply give_hint_no_placeholder.
Qed.

End HintThenGuess.

(** ** ASCII text *)

Lemma lower_ascii_length (s : pystr) :
  (length s <= length (lower_ascii s))%nat.
Proof. unfold lower_ascii. now rewrite length_map. Qed.

Lemma lower_ascii_nonalpha (c : N) :
  isalpha_ascii c = false ->
  exists c' : N, lower_ascii [c] = [c'] /\ isalpha_ascii c' = false.
Proof.
  intros H. exists c. split; [|exact H].
  unfold isalpha_ascii in H. apply orb_false_iff in H as [Hu _].
  unfold lower_ascii. simpl. now rewrite Hu.
Qed.

Lemma init_cat :
  HangMan_init lower_ascii isalpha_ascii (lit "Cat") = Returns game_cat.
Proof. reflexivity. Qed.

Lemma init_aa :
  HangMan_init lower_ascii isalpha_ascii (lit "aa") = Returns game_aa.
Proof. reflexivity. Qed.

Lemma init_underscore :
  HangMan_init lower_ascii isalpha_ascii (lit "_") = Returns game_underscore.
Proof. reflexivity. Qed.

Lemma give_hint_underscore (rnd : nat) :
  give_hint rnd game_underscore
  = (Returns (msg_hint (lit "_")), game_underscore).
Proof.
  change game_underscore with (after_hint 0 95%N game_underscore) at 2.
  apply give_hint_at; [left| |reflexivity|reflexivity].
  intros g'. change (filter _ _) with [0%nat].
  unfold random_choice. cbn [length]. now rewrite Nat.mod_1_r.
Qed.

(** The rounds of the specification, played on ASCII text. *)
Example round_cat :
  let guess := make_guess lower_ascii isalpha_ascii in
  (guess (lit "c") game_cat).2
  = mkHangMan (lit "cat") [lit "c"; underscore; underscore] 0
              {[ lit "c" ]} 0 /\
  ((guess (lit "c") ;; guess (lit "z")) game_cat).2
  = mkHangMan (lit "cat") [lit "c"; underscore; underscore] 1
              {[ lit "z"; lit "c" ]} 1 /\
  ((guess (lit "c") ;; guess (lit "z") ;; guess (lit "a")) game_cat).2
  = mkHangMan (lit "cat") [lit "c"; lit "a"; underscore] 1
              {[ lit "a"; lit "z"; lit "c" ]} 0 /\
  win_condition
    ((guess (lit "c") ;; guess (lit "z") ;; guess (lit "a") ;;
      guess (lit "t")) game_cat).2 = true.
Proof. repeat split. Qed.

Example round_moon :
  exists g : HangMan,
    HangMan_init lower_ascii isalpha_ascii (lit "moon") = Returns g /\
    hint (make_guess lower_ascii isalpha_ascii (lit "o") g).2
    = [underscore; lit "o"; lit "o"; underscore].
Proof. eexists. split; reflexivity. Qed.

Example round_space :
  exists g : HangMan,
    HangMan_init lower_ascii isalpha_ascii (lit "a b") = Returns g /\
    hint g = [underscore; lit " "; underscore].
Proof. eexists. split; reflexivity. Qed.

Example round_lost :
  let guess := make_guess lower_ascii isalpha_ascii in
  exists g : HangMan,
    HangMan_init lower_ascii isalpha_ascii (lit "dog") = Returns g /\
    lose_condition (guess (lit "z") g).2 = false /\
    lose_condition
      ((guess (lit "z") ;; guess (lit "x") ;; guess (lit "q") ;;
        guess (lit "w") ;; guess (lit "v") ;; guess (lit "k")) g).2 = true.
Proof. eexists. repeat split. Qed.

(** C5 as stated fails: the empty secret is accepted. *)
Lemma init_accepts_empty_secret :
  ~ exists e : exn,
      HangMan_init lower_ascii isalpha_ascii (lit "") = Raises e.
Proof. intros [e H]. discriminate H. Qed.

(** C9 at the secret ["_"], which is not empty and has no letter.  The mask
    is the secret itself, yet its entry counts as a placeholder: the win
    test fails, and [give_hint] "reveals" the underscore instead of
    answering that no hint is needed. *)
Theorem underscore_secret_not_won :
  HangMan_init lower_ascii isalpha_ascii (lit "_") = Returns game_underscore /\
  hint game_underscore = [lit "_"] /\
  win_condition game_underscore = false /\
  (forall rnd : nat,
     (give_hint rnd game_underscore).1 = Returns (msg_hint (lit "_"))) /\
  msg_hint (lit "_") <> msg_no_hint.
Proof.
  split; [reflexivity|]. split; [reflexivity|]. split; [reflexivity|].
  split; [|discriminate].
  intros rnd. now rewrite give_hint_underscore.
Qed.

(** At the secret ["_"] the hint shows the character ["_"]; the guess of
    that character right after is rejected by the letter check. *)
Theorem hinted_underscore_rejected (rnd : nat) :
  give_hint rnd game_underscore
  = (Returns (msg_hint (lit "_")), game_underscore) /\
  make_guess lower_ascii isalpha_ascii (lit "_") game_underscore
  = (Raises (ValueError msg_not_letter), game_underscore).
Proof. split; [apply give_hint_underscore | reflexivity]. Qed.

(** ** The theorems at work on ["cat"] *)

Lemma make_guess_valid_witness :
  consistent game_cat /\
  lower_ascii (lit "C") = [99%N] /\
  isalpha_ascii 99%N = true /\
  ([99%N] ∉ guessed_letters game_cat) /\
  exists g' : HangMan,
    make_guess lower_ascii isalpha_ascii (lit "C") game_cat
    = (Returns tt, g') /\
    answer g' = answer game_cat /\
    guessed_letters g' = {[ [99%N] ]} ∪ guessed_letters game_cat /\
    [99%N] ∈ guessed_letters g' /\
    (99%N ∈ answer game_cat ->
       (forall i, answer game_cat !! i = Some 99%N ->
                  hint g' !! i = Some [99%N]) /\
       (forall i, answer game_cat !! i <> Some 99%N ->
                  hint g' !! i = hint game_cat !! i) /\
       consecutive_errors g' = 0 /\
       wrong_guesses g' = wrong_guesses game_cat) /\
    (99%N ∉ answer game_cat ->
       hint g' = hint game_cat /\
       wrong_guesses g' = wrong_guesses game_cat + 1 /\
       consecutive_errors g' = consecutive_errors game_cat + 1).
Proof.
  assert (Hnew : [99%N] ∉ guessed_letters game_cat).
  { simpl. apply not_elem_of_empty. }
  split; [reflexivity|]. split; [reflexivity|]. split; [reflexivity|].
  split; [exact Hnew|].
  apply (make_guess_valid lower_ascii isalpha_ascii (lit "C") 99%N game_cat);
    [reflexivity|reflexivity|reflexivity|exact Hnew].
Defined.

Lemma make_guess_validation_witness :
  lower_ascii [] = [] /\
  (forall s : pystr, (length s <= length (lower_ascii s))%nat) /\
  (forall c : N, isalpha_ascii c = false ->
     exists c' : N, lower_ascii [c] = [c'] /\ isalpha_ascii c' = false) /\
  make_guess lower_ascii isalpha_ascii (lit "ab") game_cat
  = (Raises (ValueError msg_one_letter), game_cat) /\
  make_guess lower_ascii isalpha_ascii (lit "3") game_cat
  = (Raises (ValueError msg_not_letter), game_cat).
Proof.
  split; [reflexivity|]. split; [exact lower_ascii_length|].
  split; [exact lower_ascii_nonalpha|]. split.
  - apply (make_guess_validation lower_ascii isalpha_ascii eq_refl
             lower_ascii_length lower_ascii_nonalpha (lit "ab") game_cat).
    simpl. lia.
  - apply (make_guess_validation lower_ascii isalpha_ascii eq_refl
             lower_ascii_length lower_ascii_nonalpha (lit "3") game_cat)
      with (c := 51%N); reflexivity.
Defined.

Lemma give_hint_spec_witness :
  consistent game_cat /\
  wrong_guesses (give_hint 1 game_cat).2 = wrong_guesses game_cat /\
  (underscore ∈ hint game_cat ->
     exists (i : nat) (c : N),
       hint game_cat !! i = Some underscore /\
       answer game_cat !! i = Some c /\
       hint (give_hint 1 game_cat).2 = <[i := [c]]> (hint game_cat) /\
       consecutive_errors (give_hint 1 game_cat).2 = 0 /\
       answer (give_hint 1 game_cat).2 = answer game_cat /\
       guessed_letters (give_hint 1 game_cat).2 = guessed_letters game_cat) /\
  (underscore ∉ hint game_cat ->
     give_hint 1 game_cat = (Returns msg_no_hint, game_cat)).
Proof.
  split; [reflexivity|].
  apply (give_hint_spec 1 game_cat). reflexivity.
Defined.


Lemma guessed_revealed_invariant_witness :
  consistent game_cat /\
  guessed_revealed game_cat /\
  (forall input : pystr,
     consistent (make_guess lower_ascii isalpha_ascii input game_cat).2 /\
     guessed_revealed
       (make_guess lower_ascii isalpha_ascii input game_cat).2) /\
  (forall rnd : nat,
     consistent (give_hint rnd game_cat).2 /\
     guessed_revealed (give_hint rnd game_cat).2).
Proof.
  assert (Hinv : guessed_revealed game_cat).
  { intros c i Hin. simpl in Hin. now apply not_elem_of_empty in Hin. }
  split; [reflexivity|]. split; [exact Hinv|].
  apply (proj2 (guessed_revealed_invariant lower_ascii isalpha_ascii)
               game_cat); [reflexivity|exact Hinv].
Defined.

(** * More of the engine *)

Lemma str_join_cons (sep x y : pystr) (l : list pystr) :
  str_join sep (x :: y :: l) = x ++ sep ++ str_join sep (y :: l).
Proof. reflexivity. Qed.

Section Game.

Variable str_lower : pystr -> pystr.
Variable chr_isalpha : N -> bool.

Local Abbreviation HangMan_init := (HangMan_init str_lower chr_isalpha).
Local Abbreviation make_guess := (make_guess str_lower chr_isalpha).
Local Abbreviation reachable := (reachable str_lower chr_isalpha).

(** What a call does to the state of a game, in one list of cases. *)
Lemma reachable_cases (P : HangMan -> Prop) :
  (forall word g, HangMan_init word = Returns g -> P g) ->
  (forall c g, reachable g -> P g -> chr_isalpha c = true ->
     [c] ∉ guessed_letters g -> P (after_guess c g)) ->
  (forall i c g, reachable g -> P g -> hint g !! i = Some underscore ->
     answer g !! i = Some c -> P (after_hint i c g)) ->
  (forall g, reachable g -> P g -> P (set_consecutive_errors 0 g)) ->
  forall g, reachable g -> P g.
Proof.
  intros Hinit Hguess Hhint Hreset g Hr.
  induction Hr as [word g Hg|input g Hr IH|rnd g Hr IH|g Hr IH].
  - now apply (Hinit word).
  - destruct (reachable_invariant _ _ _ Hr) as (Hc & _ & _).
    destruct (make_guess_cases str_lower chr_isalpha input g Hc)
      as [[e ->]|(c & _ & Ha & Hnew & ->)]; simpl; [exact IH|].
    now apply Hguess.
  - destruct (reachable_invariant _ _ _ Hr) as (Hc & _ & _).
    destruct (give_hint_cases rnd g Hc)
      as [->|(i & c & Hi & Hci & ->)]; simpl; [exact IH|].
    now apply Hhint.
  - now apply Hreset.
Qed.

(** The mask entry of a position after an accepted guess of [c]. *)
Lemma lookup_after_guess (c c' : N) (i : nat) (g : HangMan) :
  consistent g -> answer g !! i = Some c' ->
  hint (after_guess c g) !! i
  = if decide (c' = c) then Some [c] else hint g !! i.
Proof.
  intros Hc Hi. unfold after_guess.
  destruct (str_contains (answer g) [c]) eqn:Hin; simpl.
  - case_decide as Heq.
    + subst c'. now apply lookup_reveal_all_hit.
    + apply lookup_reveal_all_miss. congruence.
  - case_decide as Heq; [|reflexivity]. subst c'.
    apply list_elem_of_lookup_2, str_contains_single in Hi. congruence.
Qed.

Lemma lookup_after_guess_outside (c : N) (i : nat) (g : HangMan) :
  answer g !! i = None -> hint (after_guess c g) !! i = hint g !! i.
Proof.
  intros Hi. unfold after_guess.
  destruct (str_contains (answer g) [c]); simpl; [|reflexivity].
  apply lookup_reveal_all_miss. congruence.
Qed.

Lemma reachable_mask (g : HangMan) :
  reachable g ->
  forall (i : nat) (c : N), answer g !! i = Some c ->
    hint g !! i = Some underscore \/ hint g !! i = Some [c].
Proof.
  intros Hr. pattern g. revert g Hr. apply reachable_cases.
  - intros word g [= <-] i c. simpl. intros Hi.
    rewrite list_lookup_fmap, Hi. simpl.
    destruct (chr_isalpha c); simpl; auto.
  - intros c g Hr IH _ _ i c' Hi.
    destruct (reachable_invariant _ _ _ Hr) as (Hc & _ & _).
    rewrite answer_after_guess in Hi.
    rewrite (lookup_after_guess c c' i g Hc Hi).
    case_decide; [subst; auto|now apply IH].
  - intros i0 c0 g Hr IH Hi0 Hci0 i c. simpl. intros Hi.
    destruct (decide (i0 = i)) as [->|Hne].
    + rewrite list_lookup_insert_eq by (eapply lookup_lt_Some, Hi0).
      right. congruence.
    + rewrite list_lookup_insert_ne by exact Hne. now apply IH.
  - intros g _ IH. exact IH.
Qed.

Lemma reachable_nonalpha (g : HangMan) :
  reachable g ->
  forall (i : nat) (c : N), answer g !! i = Some c ->
    chr_isalpha c = false -> hint g !! i = Some [c].
Proof.
  intros Hr. pattern g. revert g Hr. apply reachable_cases.
  - intros word g [= <-] i c. simpl. intros Hi Ha.
    rewrite list_lookup_fmap, Hi. simpl. now rewrite Ha.
  - intros c g Hr IH _ _ i c' Hi Ha.
    destruct (reachable_invariant _ _ _ Hr) as (Hc & _ & _).
    rewrite answer_after_guess in Hi.
    rewrite (lookup_after_guess c c' i g Hc Hi).
    case_decide; [now subst|now apply IH].
  - intros i0 c0 g Hr IH Hi0 Hci0 i c. simpl. intros Hi Ha.
    destruct (decide (i0 = i)) as [->|Hne].
    + rewrite list_lookup_insert_eq by (eapply lookup_lt_Some, Hi0).
      congruence.
    + rewrite list_lookup_insert_ne by exact Hne. now apply IH.
  - intros g _ IH. exact IH.
Qed.

Lemma reachable_counters (g : HangMan) :
  reachable g -> 0 <= consecutive_errors g <= wrong_guesses g.
Proof.
  intros Hr. pattern g. revert g Hr. apply reachable_cases.
  - intros word g [= <-]. simpl. lia.
  - intros c g _ IH _ _. unfold after_guess.
    destruct (str_contains (answer g) [c]); simpl; lia.
  - intros i c g _ IH _ _. simpl. lia.
  - intros g _ IH. simpl. lia.
Qed.

Lemma reachable_guessed_letters (g : HangMan) :
  reachable g ->
  forall s : pystr, s ∈ guessed_letters g ->
    exists c : N, s = [c] /\ chr_isalpha c = true.
Proof.
  intros Hr. pattern g. revert g Hr. apply reachable_cases.
  - intros word g [= <-] s. simpl. intros Hs.
    now apply not_elem_of_empty in Hs.
  - intros c g _ IH Ha _ s Hs.
    assert (Hs' : s ∈ ({[ [c] ]} ∪ guessed_letters g : gset pystr)).
    { unfold after_guess in Hs.
      now destruct (str_contains (answer g) [c]). }
    apply elem_of_union in Hs' as [Hs'|Hs']; [|now apply IH].
    apply elem_of_singleton in Hs'. now exists c.
  - intros i c g _ IH _ _. exact IH.
  - intros g _ IH. exact IH.
Qed.

(** *** The mask *)

(** X1.  In every state of a game the mask is as long as the secret, each
    of its entries is the placeholder or the secret's character of that
    position, and a character that is not a letter is always shown. *)
Theorem game_mask_sound (g : HangMan) :
  reachable g ->
  length (hint g) = length (answer g) /\
  forall (i : nat) (c : N), answer g !! i = Some c ->
    (hint g !! i = Some underscore \/ hint g !! i = Some [c]) /\
    (chr_isalpha c = false -> hint g !! i = Some [c]).
Proof.
  intros Hr. split; [apply (reachable_invariant _ _ _ Hr)|].
  intros i c Hi. split.
  - now apply reachable_mask.
  - now apply reachable_nonalpha.
Qed.

Lemma shown_entries_kept (g : HangMan) (i : nat) :
  reachable g -> hint g !! i <> Some underscore ->
  (forall input : pystr, hint (make_guess input g).2 !! i = hint g !! i) /\
  (forall rnd : nat, hint (give_hint rnd g).2 !! i = hint g !! i).
Proof.
  intros Hr Hshown.
  destruct (reachable_invariant _ _ _ Hr) as (Hc & _ & _). split.
  - intros input.
    destruct (make_guess_cases str_lower chr_isalpha input g Hc)
      as [[e ->]|(c & _ & _ & _ & ->)]; simpl; [reflexivity|].
    destruct (answer g !! i) as [c'|] eqn:Hi.
    + rewrite (lookup_after_guess c c' i g Hc Hi).
      case_decide as Heq; [|reflexivity]. subst c'.
      destruct (reachable_mask g Hr i c Hi) as [H|H]; congruence.
    + now apply lookup_after_guess_outside.
  - intros rnd.
    destruct (give_hint_cases rnd g Hc)
      as [->|(i0 & c & Hi0 & Hci & ->)]; simpl; [reflexivity|].
    apply list_lookup_insert_ne. congruence.
Qed.

(** X2.  In a game, an entry of the mask that is not a placeholder is never
    changed again, neither by a guess nor by a hint. *)
Theorem revealed_entries_stay (g : HangMan) (i : nat) :
  reachable g -> hint g !! i <> Some underscore ->
  (forall input : pystr, hint (make_guess input g).2 !! i = hint g !! i) /\
  (forall rnd : nat, hint (give_hint rnd g).2 !! i = hint g !! i).
Proof. apply shown_entries_kept. Qed.

(** *** The counters and the guessed letters *)

(** X3.  In every state of a game, also after the caller has reset the
    streak, [consecutive_errors] lies between 0 and [wrong_guesses]. *)
Theorem game_counters (g : HangMan) :
  reachable g -> 0 <= consecutive_errors g <= wrong_guesses g.
Proof. apply reachable_counters. Qed.

(** X4.  In every state of a game, [wrong_guesses] is the number of guessed
    letters that do not occur in the secret, and every member of
    [guessed_letters] is one alphabetic character. *)
Theorem wrong_guesses_count (g : HangMan) :
  reachable g ->
  wrong_guesses g = Z.of_nat (size (missed_letters g)) /\
  forall s : pystr, s ∈ guessed_letters g ->
    exists c : N, s = [c] /\ chr_isalpha c = true.
Proof.
  intros Hr. split; [|now apply reachable_guessed_letters].
  pattern g. revert g Hr. apply reachable_cases.
  - intros word g [= <-]. unfold missed_letters. simpl.
    rewrite filter_empty_L by apply _. now rewrite size_empty.
  - intros c g _ IH _ Hnew. unfold missed_letters, after_guess.
    destruct (str_contains (answer g) [c]) eqn:Hin; simpl;
      rewrite filter_union_L by apply _.
    + rewrite filter_singleton_False_L by (apply _ || congruence).
      rewrite union_empty_l_L. exact IH.
    + rewrite filter_singleton_True_L by (apply _ || exact Hin).
      rewrite size_union, size_singleton.
      * unfold missed_letters in IH. lia.
      * apply disjoint_singleton_l. intros H.
        apply elem_of_filter in H. now destruct H.
  - intros i c g _ IH _ _. exact IH.
  - intros g _ IH. exact IH.
Qed.

(** *** Accepting and rejecting *)

Lemma make_guess_outcome (input : pystr) (g : HangMan) :
  consistent g ->
  (exists msg : pystr, make_guess input g = (Raises (ValueError msg), g) /\
     forall c : N, str_lower input = [c] -> chr_isalpha c = true ->
       [c] ∈ guessed_letters g) \/
  (exists c : N,
     str_lower input = [c] /\ chr_isalpha c = true /\
     ([c] ∉ guessed_letters g) /\
     make_guess input g = (Returns tt, after_guess c g)).
Proof.
  intros Hc. destruct (str_lower input) as [|c [|b rest]] eqn:Hlow.
  - left. eexists. split; [|discriminate].
    apply make_guess_rejected. rewrite Hlow.
    now apply validate_input_length.
  - destruct (chr_isalpha c) eqn:Ha.
    + destruct (decide ([c] ∈ guessed_letters g)) as [Hin|Hin].
      * left. eexists. split; [|congruence].
        apply make_guess_rejected. rewrite Hlow.
        now apply validate_input_already.
      * right. exists c. repeat split; try assumption.
        now apply make_guess_accepted.
    + left. eexists. split; [|congruence].
      apply make_guess_rejected. rewrite Hlow.
      now apply validate_input_not_letter.
  - left. eexists. split; [|discriminate].
    apply make_guess_rejected. rewrite Hlow.
    now apply validate_input_length.
Qed.

(** X5.  When mask and secret have the same length, [make_guess] returns
    exactly for the inputs whose lowercase form is one letter not yet
    guessed; for every other input it raises a [ValueError] and the state
    is the one before the call.  It never raises anything else. *)
Theorem make_guess_accepts_exactly (input : pystr) (g : HangMan) :
  consistent g ->
  ((make_guess input g).1 = Returns tt <->
     exists c : N, str_lower input = [c] /\ chr_isalpha c = true /\
                   [c] ∉ guessed_letters g) /\
  ((make_guess input g).1 <> Returns tt ->
     exists msg : pystr, make_guess input g = (Raises (ValueError msg), g)).
Proof.
  intros Hc.
  destruct (make_guess_outcome input g Hc)
    as [(msg & Hrun & Hold)|(c & Hlow & Ha & Hnew & Hrun)];
    rewrite Hrun; simpl; split.
  - split; [discriminate|]. intros (c & Hlow & Ha & Hnew).
    exfalso. apply Hnew. now apply Hold.
  - intros _. now exists msg.
  - split; [|reflexivity]. intros _. now exists c.
  - congruence.
Qed.

(** X6.  A guess that has just been accepted is rejected when it is made
    again: the second call raises the "already guessed" [ValueError] and
    changes nothing. *)
Theorem repeated_guess_rejected (input : pystr) (c : N) (g : HangMan) :
  consistent g ->
  str_lower input = [c] -> chr_isalpha c = true ->
  [c] ∉ guessed_letters g ->
  make_guess input (make_guess input g).2
  = (Raises (ValueError (msg_already [c])), (make_guess input g).2).
Proof.
  intros Hc Hlow Ha Hnew.
  rewrite (make_guess_accepted str_lower chr_isalpha input c g)
    by assumption.
  simpl. apply make_guess_rejected. rewrite Hlow.
  apply validate_input_already; [exact Ha|].
  unfold after_guess.
  destruct (str_contains (answer g) [c]); simpl;
    apply elem_of_union_l; now apply elem_of_singleton.
Qed.

(** X7.  In a game whose mask and secret have the same length [give_hint]
    never raises: it always returns a message. *)
Theorem give_hint_returns (rnd : nat) (g : HangMan) :
  consistent g ->
  exists msg : pystr, (give_hint rnd g).1 = Returns msg.
Proof.
  intros Hc.
  destruct (give_hint_cases rnd g Hc) as [->|(i & c & _ & _ & ->)];
    simpl; eauto.
Qed.

End Game.

(** *** Winning, and what is displayed *)

Lemma win_condition_no_placeholder (g : HangMan) :
  win_condition g = true <-> underscore ∉ hint g.
Proof.
  unfold win_condition. rewrite negb_true_iff.
  rewrite <- list_contains_elem_of.
  destruct (list_contains (hint g) underscore); split; congruence.
Qed.

(** Two lists of one-character strings that agree up to placeholders are
    joined into strings that agree up to underscores. *)
Lemma str_join_masks (sep : pystr) (h a : list pystr) :
  Forall2 (fun x y => (x = underscore \/ x = y) /\ exists c, y = [c]) h a ->
  Forall2 (fun x y => x = 95%N \/ x = y) (str_join sep h) (str_join sep a).
Proof.
  assert (Hsep : Forall2 (fun x y : N => x = 95%N \/ x = y) sep sep).
  { apply Forall_Forall2_diag, Forall_forall. auto. }
  induction 1 as [|x y h a [Hxy [c ->]] Hrest IH]; [constructor|].
  assert (Hone : Forall2 (fun x y : N => x = 95%N \/ x = y) x [c]).
  { destruct Hxy as [->| ->]; (constructor; [auto|constructor]). }
  destruct Hrest as [|x' y' h a Hxy' Hrest]; [exact Hone|].
  rewrite !str_join_cons.
  apply Forall2_app; [exact Hone|]. apply Forall2_app; [exact Hsep|].
  exact IH.
Qed.

Lemma placeholders_insert (h : list pystr) (i : nat) (x : pystr) :
  h !! i = Some underscore -> x <> underscore ->
  (placeholders (<[i := x]> h) + 1)%nat = placeholders h.
Proof.
  unfold placeholders. revert i.
  induction h as [|y h IH]; intros i Hi Hx; [inversion Hi|].
  destruct i as [|i]; simpl in *.
  - injection Hi as ->.
    rewrite filter_cons_False by exact Hx.
    rewrite filter_cons_True by reflexivity. simpl. lia.
  - specialize (IH i Hi Hx). rewrite !filter_cons.
    destruct (decide (y = underscore)); simpl; lia.
Qed.

Lemma placeholders_le (h h' : list pystr) :
  length h' = length h ->
  (forall i, h' !! i = Some underscore -> h !! i = Some underscore) ->
  (placeholders h' <= placeholders h)%nat.
Proof.
  unfold placeholders. revert h'.
  induction h as [|y h IH]; intros [|y' h'] Hlen Hsub;
    try discriminate; [simpl; lia|].
  assert (IH' : (length (filter (fun x => x = underscore) h')
                 <= length (filter (fun x => x = underscore) h))%nat).
  { apply IH; [simpl in Hlen; lia|]. intros i. apply (Hsub (S i)). }
  rewrite !filter_cons.
  destruct (decide (y' = underscore)) as [->|Hy'].
  - specialize (Hsub 0%nat eq_refl). injection Hsub as ->.
    rewrite decide_True by reflexivity. simpl. lia.
  - destruct (decide (y = underscore)); simpl; lia.
Qed.

Lemma placeholders_zero (h : list pystr) :
  placeholders h = 0%nat <-> underscore ∉ h.
Proof.
  unfold placeholders. induction h as [|y h IH]; simpl.
  - split; [intros _ H; inversion H|reflexivity].
  - rewrite filter_cons, not_elem_of_cons.
    destruct (decide (y = underscore)) as [->|Hy]; simpl.
    + split; [discriminate|intros [H _]; contradiction].
    + rewrite IH. split; [intros H; split; congruence|now intros [_ H]].
Qed.

Section GameDisplay.

Variable str_lower : pystr -> pystr.
Variable chr_isalpha : N -> bool.

Local Abbreviation make_guess := (make_guess str_lower chr_isalpha).
Local Abbreviation reachable := (reachable str_lower chr_isalpha).

Lemma reachable_mask_Forall2 (g : HangMan) :
  reachable g ->
  Forall2 (fun x y => (x = underscore \/ x = y) /\ exists c, y = [c])
          (hint g) (List.map (fun c => [c]) (answer g)).
Proof.
  intros Hr. destruct (reachable_invariant _ _ _ Hr) as (Hc & _ & _).
  apply Forall2_same_length_lookup_2.
  - rewrite length_map. exact Hc.
  - intros i x y Hx Hy. rewrite list_lookup_fmap in Hy.
    destruct (answer g !! i) as [c|] eqn:Hi; [|discriminate].
    injection Hy as <-. split; [|now exists c].
    destruct (reachable_mask _ _ g Hr i c Hi) as [H|H];
      rewrite H in Hx; injection Hx as <-; auto.
Qed.

(** X8.  In every state of a game the text of [display_hint] is the text
    of [display_answer] with underscores in place of some characters: the
    two have the same length and differ only where the hint has an
    underscore. *)
Theorem display_hint_masks_answer (g : HangMan) :
  reachable g ->
  length (display_hint g) = length (display_answer g) /\
  forall (i : nat) (x : N), display_hint g !! i = Some x ->
    x = 95%N \/ display_answer g !! i = Some x.
Proof.
  intros Hr.
  pose proof (str_join_masks (lit " ") _ _ (reachable_mask_Forall2 g Hr))
    as H.
  fold (display_hint g) in H. fold (display_answer g) in H.
  split; [eapply Forall2_length, H|].
  intros i x Hx.
  destruct (Forall2_lookup_l _ _ _ _ _ H Hx) as (y & Hy & [->| ->]); auto.
Qed.

(** X9.  When a game is won, the mask is the secret, character by
    character, and [display_hint] shows what [display_answer] shows. *)
Theorem won_mask_is_secret (g : HangMan) :
  reachable g -> win_condition g = true ->
  hint g = List.map (fun c => [c]) (answer g) /\
  display_hint g = display_answer g.
Proof.
  intros Hr Hwin. apply win_condition_no_placeholder in Hwin.
  assert (Heq : hint g = List.map (fun c => [c]) (answer g)).
  { pose proof (reachable_mask_Forall2 g Hr) as H.
    apply list_eq. intros i. destruct (hint g !! i) as [x|] eqn:Hx.
    - destruct (Forall2_lookup_l _ _ _ _ _ H Hx) as (y & Hy & [Hor _]).
      destruct Hor as [->| ->]; [|now rewrite Hy].
      exfalso. apply Hwin. eapply list_elem_of_lookup_2, Hx.
    - symmetry. apply lookup_ge_None. rewrite <- (Forall2_length _ _ _ H).
      now apply lookup_ge_None. }
  split; [exact Heq|]. unfold display_hint, display_answer. now rewrite Heq.
Qed.

End GameDisplay.

Section GameProgress.

Variable str_lower : pystr -> pystr.
Variable chr_isalpha : N -> bool.

Local Abbreviation make_guess := (make_guess str_lower chr_isalpha).
Local Abbreviation reachable := (reachable str_lower chr_isalpha).

(** X10.  In a game on a secret without underscores, once every letter of
    the secret is among the guessed letters the win test holds. *)
Theorem all_letters_guessed_won (g : HangMan) :
  reachable g -> 95%N ∉ answer g ->
  (forall c : N, c ∈ answer g -> chr_isalpha c = true ->
     [c] ∈ guessed_letters g) ->
  win_condition g = true.
Proof.
  intros Hr Hno Hall. apply win_condition_no_placeholder. intros Hin.
  destruct (reachable_invariant _ _ _ Hr) as (Hc & Hinv & _).
  apply list_elem_of_lookup in Hin. destruct Hin as [i Hi].
  assert (Hlt : (i < length (answer g))%nat).
  { rewrite <- Hc. eapply lookup_lt_Some, Hi. }
  apply lookup_lt_is_Some in Hlt. destruct Hlt as [c Hci].
  assert (Hshown : hint g !! i = Some [c]).
  { destruct (chr_isalpha c) eqn:Ha.
    - apply Hinv; [|exact Hci]. apply Hall; [|exact Ha].
      eapply list_elem_of_lookup_2, Hci.
    - now apply (reachable_nonalpha _ _ g Hr). }
  rewrite Hi in Hshown. injection Hshown as <-.
  apply Hno. eapply list_elem_of_lookup_2, Hci.
Qed.

Lemma still_hidden (g : HangMan) (h' : list pystr) :
  (forall i, hint g !! i <> Some underscore -> h' !! i = hint g !! i) ->
  forall i, h' !! i = Some underscore -> hint g !! i = Some underscore.
Proof.
  intros Hkept i Hi.
  destruct (decide (hint g !! i = Some underscore)) as [H|H]; [exact H|].
  rewrite (Hkept i H) in Hi. contradiction.
Qed.

(** X11.  In a game the number of placeholders in the mask never grows,
    neither by a guess nor by a hint, and the win test holds exactly when
    it is 0. *)
Theorem placeholders_never_grow (g : HangMan) :
  reachable g ->
  (forall input : pystr,
     (placeholders (hint (make_guess input g).2)
      <= placeholders (hint g))%nat) /\
  (forall rnd : nat,
     (placeholders (hint (give_hint rnd g).2)
      <= placeholders (hint g))%nat) /\
  (win_condition g = true <-> placeholders (hint g) = 0%nat).
Proof.
  intros Hr. split; [|split].
  - intros input.
    assert (Hr' : reachable (make_guess input g).2) by now constructor.
    destruct (reachable_invariant _ _ _ Hr) as (Hc & _ & word & Hw).
    destruct (reachable_invariant _ _ _ Hr') as (Hc' & _ & _).
    apply placeholders_le.
    + unfold consistent in Hc, Hc'. rewrite Hc', Hc.
      destruct (make_guess_cases str_lower chr_isalpha input g Hc)
        as [[e ->]|(c & _ & _ & _ & ->)]; simpl; [reflexivity|].
      now rewrite answer_after_guess.
    + apply still_hidden. intros i Hi.
      now apply (shown_entries_kept str_lower chr_isalpha g i Hr Hi).
  - intros rnd.
    destruct (reachable_invariant _ _ _ Hr) as (Hc & _ & _).
    apply placeholders_le.
    + destruct (give_hint_cases rnd g Hc)
        as [->|(i & c & _ & _ & ->)]; simpl; [reflexivity|].
      apply length_insert.
    + apply still_hidden. intros i Hi.
      now apply (shown_entries_kept str_lower chr_isalpha g i Hr Hi).
  - rewrite win_condition_no_placeholder. symmetry.
    apply placeholders_zero.
Qed.

(** X12.  In a game on a secret without underscores, a hint asked while a
    placeholder is left removes exactly one placeholder. *)
Theorem hint_removes_one_placeholder (rnd : nat) (g : HangMan) :
  reachable g -> 95%N ∉ answer g -> underscore ∈ hint g ->
  (placeholders (hint (give_hint rnd g).2) + 1)%nat
  = placeholders (hint g).
Proof.
  intros Hr Hno Hin.
  destruct (reachable_invariant _ _ _ Hr) as (Hc & _ & _).
  destruct (give_hint_reveals rnd g Hc Hin) as (i & c & Hi & Hci & ->).
  simpl. apply placeholders_insert; [exact Hi|].
  intros [= ->]. apply Hno. eapply list_elem_of_lookup_2, Hci.
Qed.

End GameProgress.

(** ** The gallows *)

Lemma hangman_lookup_outside (stage : Z) :
  ~ (0 <= stage <= 6) -> hangman !! stage = None.
Proof.
  intros H. unfold hangman. simpl.
  rewrite !lookup_insert_ne by lia. apply lookup_empty.
Qed.

Lemma hangman_lookup_inside (stage : Z) :
  0 <= stage <= 6 -> is_Some (hangman !! stage).
Proof.
  intros H.
  assert (Hcases : stage = 0 \/ stage = 1 \/ stage = 2 \/ stage = 3 \/
                   stage = 4 \/ stage = 5 \/ stage = 6) by lia.
  destruct Hcases as [->|[->|[->|[->|[->|[->| ->]]]]]]; eexists; reflexivity.
Qed.

(** X13.  [display_hangman(stage)] returns a drawing exactly for the stages
    0 to 6 and raises [KeyError] for every other one.  A drawing has seven
    lines: the beam, the rope, three lines for the figure, the post and the
    ground; only the three lines of the figure depend on the stage, and each
    of them starts with the post. *)
Theorem display_hangman_stages (stage : Z) :
  (0 <= stage <= 6 ->
     exists l2 l3 l4 : string,
       display_hangman stage
       = Some [ " +------+ "%string; " |      |"%string;
                String.append " |     " l2; String.append " |     " l3;
                String.append " |     " l4;
                " |     "%string; "_|_________"%string ]) /\
  (~ (0 <= stage <= 6) -> display_hangman stage = None).
Proof.
  split; intros H; unfold display_hangman.
  - destruct (hangman_lookup_inside stage H) as [[[head body] legs] ->].
    now exists head, body, legs.
  - now rewrite hangman_lookup_outside.
Qed.

(** * The game screen *)

Lemma hint_offers_show (d : dialog) (a : App) :
  hint_offers (show d a)
  = (hint_offers a + if is_hint_offer d then 1 else 0)%nat.
Proof.
  unfold hint_offers. simpl. rewrite List.filter_app, length_app. simpl.
  now destruct (is_hint_offer d).
Qed.

Lemma display_hangman_on_canvas_inside (stage : Z) (a : App) :
  0 <= stage <= 6 ->
  exists lines : list string,
    display_hangman stage = Some lines /\ length lines = 7%nat /\
    display_hangman_on_canvas stage a
    = (Done, set_canvas (canvas_lines 10 lines) a).
Proof.
  intros H. unfold display_hangman_on_canvas, display_hangman.
  destruct (hangman_lookup_inside stage H) as [[[head body] legs] ->].
  eexists. repeat split.
Qed.

Lemma display_hangman_on_canvas_outside (stage : Z) (a : App) :
  ~ (0 <= stage <= 6) ->
  display_hangman_on_canvas stage a
  = (Crash UnboundLocalError,
     show (ShowInfo (lit "Error") (str_of_int stage)) (set_canvas [] a)).
Proof.
  intros H. unfold display_hangman_on_canvas, display_hangman.
  now rewrite hangman_lookup_outside.
Qed.

(** X14.  [display_hangman_on_canvas(stage)] clears the canvas and, for a
    stage from 0 to 6, draws the seven lines of that stage as text items at
    [x = 30] and [y = 10, 28, ..., 118].  For any other stage it shows the
    key in an "Error" box and then fails with [UnboundLocalError], leaving
    the canvas empty. *)
Theorem display_hangman_on_canvas_spec (stage : Z) (a : App) :
  (0 <= stage <= 6 ->
   exists l1 l2 l3 l4 l5 l6 l7 : string,
     display_hangman stage = Some [l1; l2; l3; l4; l5; l6; l7] /\
     display_hangman_on_canvas stage a
     = (Done,
        set_canvas [ (30, 10, l1); (30, 28, l2); (30, 46, l3); (30, 64, l4);
                     (30, 82, l5); (30, 100, l6); (30, 118, l7) ] a)) /\
  (~ (0 <= stage <= 6) ->
   display_hangman_on_canvas stage a
   = (Crash UnboundLocalError,
      show (ShowInfo (lit "Error") (str_of_int stage)) (set_canvas [] a))).
Proof.
  split; [|apply display_hangman_on_canvas_outside].
  intros H. unfold display_hangman_on_canvas, display_hangman.
  destruct (hangman_lookup_inside stage H) as [[[head body] legs] ->].
  repeat eexists.
Qed.

Ltac screen_simpl :=
  unfold hint_offers;
  cbn [fst snd game entry_letter guessed_word_label lives_label canvas
       guess_button_enabled dialogs refreshed show set_game
       set_entry_letter set_guessed_word_label set_lives_label set_canvas
       set_guess_button_enabled
       wrong_guesses consecutive_errors hint answer guessed_letters
       set_consecutive_errors after_hint set_hint];
  rewrite ?List.filter_app, ?length_app;
  cbn [List.filter is_hint_offer length].

Section Screen.

Variable str_lower : pystr -> pystr.
Variable chr_isalpha : N -> bool.

Local Abbreviation make_guess := (make_guess str_lower chr_isalpha).
Local Abbreviation reachable := (reachable str_lower chr_isalpha).
Local Abbreviation play_game := (play_game str_lower chr_isalpha).
Local Abbreviation play_hangman := (play_hangman str_lower chr_isalpha).
Local Abbreviation session := (session str_lower chr_isalpha).
Local Abbreviation session_inv := (session_inv str_lower chr_isalpha).

Lemma play_hangman_rejected (text msg : pystr) (g : HangMan)
      (ask : bool) (rnd : nat) (a : App) :
  make_guess text (game a) = (Raises (ValueError msg), g) ->
  play_hangman ask rnd (type_guess text a)
  = (Done, show (ShowInfo (lit "Error") msg)
                (set_game g (set_entry_letter [] a))).
Proof.
  intros H. unfold play_hangman, type_guess.
  cbn [game set_entry_letter entry_letter]. now rewrite H.
Qed.

Lemma play_hangman_accepted (text : pystr) (g : HangMan)
      (lines : list string) (ask : bool) (rnd : nat) (a : App) :
  make_guess text (game a) = (Returns tt, g) ->
  display_hangman (wrong_guesses g) = Some lines ->
  play_hangman ask rnd (type_guess text a)
  = let a1 := refreshed g lines a in
    if win_condition g then
      (Done, set_guess_button_enabled false
               (show (ShowInfo (lit "WIN") (lit "Congrats! You WON!")) a1))
    else if lose_condition g then
      (Done, set_guess_button_enabled false
               (show (ShowInfo (lit "LOSE")
                        (lit "You LOST! The word was " ++ answer g)) a1))
    else if (consecutive_errors g =? 3) then
      let a2 := show (AskYesNo (lit "Hint") (lit "Do you want a hint?") ask)
                     a1 in
      if ask then
        match give_hint rnd g with
        | (Raises e, g') => (Crash (EngineError e), set_game g' a2)
        | (Returns hint_msg, g') =>
            (Done,
             set_game (set_consecutive_errors 0 g')
               (set_guessed_word_label (str_join (lit " ") (hint g'))
                  (show (ShowInfo (lit "Hint") hint_msg) (set_game g' a2))))
        end
      else (Done, set_game (set_consecutive_errors 0 g) a2)
    else (Done, a1).
Proof.
  intros H Hlines. unfold play_hangman, type_guess.
  cbn [game set_entry_letter entry_letter]. rewrite H.
  unfold display_hangman_on_canvas.
  cbn [game set_game set_guessed_word_label set_lives_label set_canvas].
  rewrite Hlines. cbv zeta.
  cbn [game set_game set_guessed_word_label set_lives_label set_canvas
       set_entry_letter show].
  destruct (win_condition g); [reflexivity|].
  destruct (lose_condition g); [reflexivity|].
  destruct (consecutive_errors g =? 3); [|reflexivity].
  destruct ask; [|reflexivity].
  destruct (give_hint rnd g) as [[m|e] g']; reflexivity.
Qed.

Lemma after_guess_counters (c : N) (g : HangMan) :
  (wrong_guesses (after_guess c g) = wrong_guesses g /\
   consecutive_errors (after_guess c g) = 0) \/
  (wrong_guesses (after_guess c g) = wrong_guesses g + 1 /\
   consecutive_errors (after_guess c g) = consecutive_errors g + 1).
Proof.
  unfold after_guess. destruct (str_contains (answer g) [c]); simpl; auto.
Qed.

Lemma guessed_after_guess (c : N) (g : HangMan) :
  guessed_letters (after_guess c g) <> ∅.
Proof.
  intros H.
  assert (Hin : [c] ∈ guessed_letters (after_guess c g)).
  { unfold after_guess. destruct (str_contains (answer g) [c]); simpl;
      apply elem_of_union_l; now apply elem_of_singleton. }
  rewrite H in Hin. now apply not_elem_of_empty in Hin.
Qed.

Lemma lose_condition_false (g : HangMan) :
  lose_condition g = false <-> wrong_guesses g <= 5.
Proof.
  unfold lose_condition. change max_mistakes with 6.
  rewrite Z.geb_leb, Z.leb_gt. lia.
Qed.

Lemma lose_condition_true (g : HangMan) :
  lose_condition g = true <-> 6 <= wrong_guesses g.
Proof.
  unfold lose_condition. change max_mistakes with 6.
  rewrite Z.geb_leb, Z.leb_le. lia.
Qed.

Lemma session_inv_play_game (word : pystr) :
  (play_game word).1 = Done /\ session_inv (play_game word).2.
Proof.
  split; [reflexivity|].
  unfold session_inv, screen_in_step.
  change (play_game word).2
    with (mkApp (mkHangMan (str_lower word)
                   (List.map (fun char =>
                      if negb (str_isalpha chr_isalpha [char])
                      then [char] else underscore) (str_lower word))
                   0 ∅ 0)
                [] (str_repeat (lit "_ ") (length word))
                (lit "Lives Remaining: "
                 ++ str_of_int (Z.of_nat (size hangman) - 1))
                (canvas_lines 10
                   [ " +------+ "%string; " |      |"%string;
                     " |        "%string; " |        "%string;
                     " |        "%string; " |     "%string;
                     "_|_________"%string ])
                true []).
  screen_simpl. repeat split; try lia; try discriminate.
  - now apply (reachable_init _ _ word).
  - eexists. split; reflexivity.
  - intros H. now contradiction H.
Qed.

Lemma session_inv_click (text : pystr) (ask : bool) (rnd : nat) (a : App) :
  session_inv a -> guess_button_enabled a = true ->
  (play_hangman ask rnd (type_guess text a)).1 = Done /\
  session_inv (play_hangman ask rnd (type_guess text a)).2.
Proof.
  intros (Hr & Hw6 & Hen & Hdis & Hoff & Hsum & Hlives & Hcanvas & Hlabel) He.
  destruct (Hen He) as [Hw5 Hc2].
  pose proof (reachable_counters _ _ _ Hr) as Hcnt.
  destruct (reachable_invariant _ _ _ Hr) as (Hc & _ & _).
  destruct (make_guess_outcome str_lower chr_isalpha text (game a) Hc)
    as [(msg & Hrun & _)|(c & Hlow & Ha & Hnew & Hrun)].
  - rewrite (play_hangman_rejected text msg (game a) ask rnd a Hrun).
    split; [reflexivity|].
    unfold session_inv, screen_in_step, hint_offers in *. screen_simpl.
    repeat split; try assumption; try lia.
  - set (g1 := after_guess c (game a)) in *.
    assert (Hr1 : reachable g1).
    { replace g1 with (make_guess text (game a)).2 by now rewrite Hrun.
      now constructor. }
    destruct (reachable_invariant _ _ _ Hr1) as (Hc1 & _ & _).
    pose proof (after_guess_counters c (game a)) as Hstep. fold g1 in Hstep.
    pose proof (guessed_after_guess c (game a)) as Hg1. fold g1 in Hg1.
    destruct (display_hangman_on_canvas_inside (wrong_guesses g1) a)
      as (lines & Hlines & _ & _); [lia|].
    rewrite (play_hangman_accepted text g1 lines ask rnd a Hrun Hlines).
    cbv zeta. unfold hint_offers in Hoff, Hsum.
    destruct (win_condition g1) eqn:Hwin.
    { split; [reflexivity|].
      unfold session_inv, screen_in_step. screen_simpl.
      repeat split; try assumption; try lia; try discriminate;
             try (intros; congruence); eauto. }
    destruct (lose_condition g1) eqn:Hlose.
    { split; [reflexivity|].
      unfold session_inv, screen_in_step. screen_simpl.
      repeat split; try assumption; try lia; try discriminate;
             try (intros; congruence); eauto. }
    apply lose_condition_false in Hlose.
    destruct (Z.eqb_spec (consecutive_errors g1) 3) as [H3|H3].
    + destruct ask.
      * destruct (give_hint_cases rnd g1 Hc1)
          as [Hrun'|(i & c' & Hi & Hci & Hrun')].
        -- assert (Hr2 : reachable (set_consecutive_errors 0 g1)) by
             now constructor.
           rewrite Hrun'. split; [reflexivity|].
           unfold session_inv, screen_in_step. screen_simpl.
           repeat split; try assumption; try lia; try discriminate;
             try (intros; congruence); eauto.
        -- assert (Hr2 : reachable
                           (set_consecutive_errors 0 (after_hint i c' g1))).
           { constructor.
             replace (after_hint i c' g1) with (give_hint rnd g1).2
               by now rewrite Hrun'.
             now constructor. }
           rewrite Hrun'. split; [reflexivity|].
           unfold session_inv, screen_in_step. screen_simpl.
           repeat split; try assumption; try lia; try discriminate;
             try (intros; congruence); eauto.
      * assert (Hr2 : reachable (set_consecutive_errors 0 g1)) by
          now constructor.
        split; [reflexivity|].
        unfold session_inv, screen_in_step. screen_simpl.
        repeat split; try assumption; try lia; try discriminate;
             try (intros; congruence); eauto.
    + split; [reflexivity|].
      unfold session_inv, screen_in_step. screen_simpl.
      repeat split; try assumption; try lia; try discriminate;
             try (intros; congruence); eauto.
Qed.

Lemma session_invariant (a : App) : session a -> session_inv a.
Proof.
  induction 1 as [word|text ask rnd a Hs IH He].
  - apply session_inv_play_game.
  - now apply session_inv_click.
Qed.

End Screen.

Section ScreenProperties.

Variable str_lower : pystr -> pystr.
Variable chr_isalpha : N -> bool.

Local Abbreviation make_guess := (make_guess str_lower chr_isalpha).
Local Abbreviation play_game := (play_game str_lower chr_isalpha).
Local Abbreviation play_hangman := (play_hangman str_lower chr_isalpha).
Local Abbreviation session := (session str_lower chr_isalpha).

(** X15.  A game screen never fails: [play_game] returns for every word,
    and in every state of a game screen a click on the enabled Guess
    button returns whatever the entry holds, whatever the answer to the
    hint question and whatever the draw.  No [IndexError] of the engine, no
    [KeyError] of the drawing and no unbound [lines] can occur. *)
Theorem session_never_crashes :
  (forall word : pystr, (play_game word).1 = Done) /\
  (forall a : App, session a -> guess_button_enabled a = true ->
     forall (text : pystr) (ask : bool) (rnd : nat),
       (play_hangman ask rnd (type_guess text a)).1 = Done).
Proof.
  split; [reflexivity|].
  intros a Hs He text ask rnd.
  now apply session_inv_click; [apply session_invariant|].
Qed.

(** X16.  In every state of a game screen [wrong_guesses] lies between 0
    and 6.  While the Guess button is enabled the lose test fails, so at
    least one life is left; once it is disabled the win test or the lose
    test holds. *)
Theorem session_lives (a : App) :
  session a ->
  0 <= wrong_guesses (game a) <= 6 /\
  (guess_button_enabled a = true -> lose_condition (game a) = false) /\
  (guess_button_enabled a = false ->
   win_condition (game a) = true \/ lose_condition (game a) = true).
Proof.
  intros Hs.
  destruct (session_invariant _ _ a Hs)
    as (Hr & Hw6 & Hen & Hdis & _).
  pose proof (reachable_counters _ _ _ Hr) as Hcnt.
  repeat split; try lia; [|exact Hdis].
  intros He. apply lose_condition_false. now apply Hen.
Qed.

(** X17.  On a game screen the hint question is asked at most once per
    game, and whenever the Guess button is enabled the streak of wrong
    guesses is at most 2. *)
Theorem hint_offered_at_most_once (a : App) :
  session a ->
  (hint_offers a <= 1)%nat /\
  (guess_button_enabled a = true -> consecutive_errors (game a) <= 2).
Proof.
  intros Hs.
  destruct (session_invariant _ _ a Hs)
    as (_ & _ & Hen & _ & Hoff & _).
  split; [exact Hoff|]. intros He. now apply Hen.
Qed.

(** X18.  In every state of a game screen the lives label reads "Lives
    Remaining: " followed by 6 minus [wrong_guesses], the canvas holds the
    drawing of stage [wrong_guesses], and, once a guess has been accepted,
    the word label is the text of [display_hint]. *)
Theorem screen_shows_game (a : App) :
  session a ->
  lives_label a
  = lit "Lives Remaining: " ++ str_of_int (6 - wrong_guesses (game a)) /\
  (exists lines : list string,
     display_hangman (wrong_guesses (game a)) = Some lines /\
     canvas a = canvas_lines 10 lines) /\
  (guessed_letters (game a) <> ∅ ->
   guessed_word_label a = display_hint (game a)).
Proof.
  intros Hs.
  destruct (session_invariant _ _ a Hs) as (_ & _ & _ & _ & _ & _ & H).
  exact H.
Qed.

(** X19.  A click with a guess that the engine rejects costs nothing: the
    entry is emptied, one "Error" box with the engine's message is shown,
    and the engine, both labels, the canvas and the button are as before. *)
Theorem rejected_click_changes_nothing
        (text : pystr) (ask : bool) (rnd : nat) (a : App) :
  consistent (game a) ->
  (make_guess text (game a)).1 <> Returns tt ->
  exists msg : pystr,
    (make_guess text (game a)).1 = Raises (ValueError msg) /\
    play_hangman ask rnd (type_guess text a)
    = (Done, show (ShowInfo (lit "Error") msg) (set_entry_letter [] a)).
Proof.
  intros Hc Hrej.
  destruct (make_guess_outcome str_lower chr_isalpha text (game a) Hc)
    as [(msg & Hrun & _)|(c & _ & _ & _ & Hrun)].
  - exists msg. rewrite Hrun. split; [reflexivity|].
    now rewrite (play_hangman_rejected _ _ text msg (game a) ask rnd a Hrun).
  - rewrite Hrun in Hrej. now contradiction Hrej.
Qed.

End ScreenProperties.

(** * The word source *)

Lemma keys_differ : lit "category" <> lit "language".
Proof. discriminate. Qed.

Lemma scan_pair_spec (cats langs : list json) (k : pystr) (v : json) :
  NoDup cats -> NoDup langs ->
  NoDup (scan_pair (cats, langs) (k, v)).1 /\
  NoDup (scan_pair (cats, langs) (k, v)).2 /\
  (forall x, x ∈ (scan_pair (cats, langs) (k, v)).1
             <-> x ∈ cats \/ (k = lit "category" /\ x = v)) /\
  (forall x, x ∈ (scan_pair (cats, langs) (k, v)).2
             <-> x ∈ langs \/ (k = lit "language" /\ x = v)).
Proof.
  intros Hcats Hlangs. pose proof keys_differ as Hk.
  assert (Hsnoc : forall (l : list json), NoDup l -> v ∉ l ->
                    NoDup (l ++ [v])).
  { intros l Hl Hv. apply NoDup_app. repeat split; [exact Hl| |].
    - intros x Hx Hx'. apply list_elem_of_singleton in Hx'. now subst.
    - apply NoDup_singleton. }
  unfold scan_pair, scan_language.
  repeat case_decide; subst; simpl;
    (split; [|split; [|split]]); auto; try congruence;
    intros x; rewrite ?elem_of_app, ?list_elem_of_singleton;
    intuition (subst; auto; congruence).
Qed.

Lemma scan_pairs_spec (pairs : item) (cats langs : list json) :
  NoDup cats -> NoDup langs ->
  NoDup (fold_left scan_pair pairs (cats, langs)).1 /\
  NoDup (fold_left scan_pair pairs (cats, langs)).2 /\
  (forall x, x ∈ (fold_left scan_pair pairs (cats, langs)).1
             <-> x ∈ cats \/ (lit "category", x) ∈ pairs) /\
  (forall x, x ∈ (fold_left scan_pair pairs (cats, langs)).2
             <-> x ∈ langs \/ (lit "language", x) ∈ pairs).
Proof.
  revert cats langs.
  induction pairs as [|[k v] pairs IH]; intros cats langs Hcats Hlangs.
  - simpl. (split; [|split; [|split]]); auto; intros x;
      (split; [auto | intros [H|H]; [auto | inversion H]]).
  - cbn [fold_left].
    destruct (scan_pair_spec cats langs k v Hcats Hlangs)
      as (Hc1 & Hl1 & Hcm & Hlm).
    destruct (scan_pair (cats, langs) (k, v)) as [cats1 langs1] eqn:E.
    simpl in Hc1, Hl1, Hcm, Hlm.
    destruct (IH cats1 langs1 Hc1 Hl1) as (Hc2 & Hl2 & Hcm2 & Hlm2).
    (split; [|split; [|split]]); try assumption; intros x.
    + rewrite Hcm2, Hcm, elem_of_cons. split.
      * intros [[H|[Hk Hx]]|H];
          [left; exact H | right; left; now rewrite Hk, Hx
          | right; right; exact H].
      * intros [H|[H|H]];
          [left; left; exact H
          | left; right; injection H as Hk Hx; split; congruence
          | right; exact H].
    + rewrite Hlm2, Hlm, elem_of_cons. split.
      * intros [[H|[Hk Hx]]|H];
          [left; exact H | right; left; now rewrite Hk, Hx
          | right; right; exact H].
      * intros [H|[H|H]];
          [left; left; exact H
          | left; right; injection H as Hk Hx; split; congruence
          | right; exact H].
Qed.

Lemma scan_response_flat (body : list item) (acc : list json * list json) :
  fold_left (fun acc d => fold_left scan_pair d acc) body acc
  = fold_left scan_pair (concat body) acc.
Proof.
  revert acc. induction body as [|d body IH]; intros acc; simpl.
  - reflexivity.
  - now rewrite fold_left_app, IH.
Qed.

Lemma dict_getitem_found (d : item) (key : pystr) (v : json) :
  dict_getitem d key = ApiReturns v -> (key, v) ∈ d.
Proof.
  induction d as [|[k x] d IH]; simpl; [discriminate|].
  case_decide as Hk.
  - intros [= ->]. subst. left.
  - intros H. right. now apply IH.
Qed.

Lemma dict_getitem_missing (d : item) (key : pystr) :
  (forall v, (key, v) ∉ d) ->
  dict_getitem d key = ApiRaises (ApiKeyError key).
Proof.
  induction d as [|[k x] d IH]; simpl; intros H; [reflexivity|].
  case_decide as Hk.
  - subst. exfalso. apply (H x). left.
  - apply IH. intros v Hv. apply (H v). now right.
Qed.

Lemma dict_getitem_present (d : item) (key : pystr) (v : json) :
  (key, v) ∈ d -> exists w, dict_getitem d key = ApiReturns w.
Proof.
  induction d as [|[k x] d IH]; simpl; intros H; [inversion H|].
  case_decide as Hk; [now exists x|].
  apply IH. apply elem_of_cons in H as [[= <- <-]|H]; [contradiction|exact H].
Qed.

Lemma dict_getitem_raises (d : item) (key : pystr) (e : api_exn) :
  dict_getitem d key = ApiRaises e -> e = ApiKeyError key.
Proof.
  induction d as [|[k x] d IH]; simpl; [now intros [= <-]|].
  case_decide; [discriminate|exact IH].
Qed.

Lemma collect_words_returns (body : list item) (ws : list json) :
  collect_words body = ApiReturns ws ->
  Forall2 (fun d w => dict_getitem d (lit "word") = ApiReturns w) body ws.
Proof.
  revert ws. induction body as [|d body IH]; simpl; intros ws.
  - intros [= <-]. constructor.
  - destruct (dict_getitem d (lit "word")) as [w|e] eqn:Hd; [|discriminate].
    destruct (collect_words body) as [ws'|e]; [|discriminate].
    intros [= <-]. constructor; [exact Hd|now apply IH].
Qed.

Lemma collect_words_raises (body : list item) (e : api_exn) :
  collect_words body = ApiRaises e -> e = ApiKeyError (lit "word").
Proof.
  induction body as [|d body IH]; simpl; [discriminate|].
  destruct (dict_getitem d (lit "word")) as [w|e'] eqn:Hd.
  - destruct (collect_words body) as [ws'|e'']; [discriminate|].
    intros [= <-]. now apply IH.
  - intros [= <-]. now apply dict_getitem_raises in Hd.
Qed.

Lemma collect_words_missing (body : list item) (d : item) :
  d ∈ body -> (forall v, (lit "word", v) ∉ d) ->
  collect_words body = ApiRaises (ApiKeyError (lit "word")).
Proof.
  intros Hin Hno.
  destruct (collect_words body) as [ws|e] eqn:E.
  - apply collect_words_returns in E.
    apply list_elem_of_lookup in Hin. destruct Hin as [i Hi].
    destruct (Forall2_lookup_l _ _ _ _ _ E Hi) as (w & _ & Hw).
    rewrite (dict_getitem_missing d _ Hno) in Hw. discriminate.
  - now rewrite (collect_words_raises body e E).
Qed.

Lemma collect_words_total (body : list item) :
  (forall d, d ∈ body -> exists v, (lit "word", v) ∈ d) ->
  exists ws, collect_words body = ApiReturns ws /\ length ws = length body.
Proof.
  induction body as [|d body IH]; simpl; intros H.
  - now exists [].
  - destruct (H d) as [v Hv]; [left|].
    destruct (dict_getitem_present d _ v Hv) as [w ->].
    destruct IH as (ws & -> & Hlen).
    { intros d' Hd'. apply H. now right. }
    exists (w :: ws). simpl. now rewrite Hlen.
Qed.

Section WordSourceProperties.

Variable fetch : pystr -> response.

(** X20.  When [get_categories_languages] returns, neither list holds a
    value twice, and the lists hold exactly the values found under the keys
    ['language'] and ['category'] in the objects of the body. *)
Theorem get_categories_languages_unique (languages categories : list json) :
  get_categories_languages fetch = ApiReturns (languages, categories) ->
  exists body : list item,
    fetch api_url = Json (Some body) /\
    NoDup languages /\ NoDup categories /\
    (forall v, v ∈ languages <->
               exists d, d ∈ body /\ (lit "language", v) ∈ d) /\
    (forall v, v ∈ categories <->
               exists d, d ∈ body /\ (lit "category", v) ∈ d).
Proof.
  unfold get_categories_languages.
  destruct (fetch api_url) as [[body|]|msg|msg]; try discriminate.
  unfold scan_response. rewrite scan_response_flat.
  destruct (scan_pairs_spec (concat body) [] [])
    as (Hc & Hl & Hcm & Hlm); try apply NoDup_nil_2.
  destruct (fold_left scan_pair (concat body) ([], [])) as [cats langs].
  simpl in Hc, Hl, Hcm, Hlm. intros [= <- <-].
  exists body. split; [reflexivity|]. split; [exact Hl|].
  split; [exact Hc|].
  assert (Hflat : forall (kv : pystr * json),
            kv ∈ concat body <-> exists d, d ∈ body /\ kv ∈ d).
  { intros kv. rewrite list_elem_of_In, in_concat. split.
    - intros (d & Hd & Hkv). exists d. now rewrite !list_elem_of_In.
    - intros (d & Hd & Hkv). exists d. now rewrite <- !list_elem_of_In. }
  split; intros v.
  - rewrite Hlm, Hflat. split; [intros [H|H]; [inversion H|exact H]|auto].
  - rewrite Hcm, Hflat. split; [intros [H|H]; [inversion H|exact H]|auto].
Qed.

(** X21.  When [get_random_word] returns, the body was a list of objects
    and the value returned is what one of them holds under ['word'].  It
    does return whenever the body is a list that is not empty and each of
    its objects has the key ['word']. *)
Theorem get_random_word_returns (rnd : nat) (language category : pystr) :
  let target := api_url ++ lit "?language=" ++ language
                ++ lit "&category=" ++ category in
  (forall w : json,
     get_random_word fetch rnd language category = ApiReturns w ->
     exists (body : list item) (d : item),
       fetch target = Json (Some body) /\ d ∈ body /\
       dict_getitem d (lit "word") = ApiReturns w) /\
  (forall body : list item,
     fetch target = Json (Some body) -> body <> [] ->
     (forall d, d ∈ body -> exists v, (lit "word", v) ∈ d) ->
     exists w : json,
       get_random_word fetch rnd language category = ApiReturns w).
Proof.
  intros target. unfold get_random_word, get_valid_response.
  fold target. split.
  - intros w.
    destruct (fetch target) as [[body|]|msg|msg]; try discriminate.
    destruct (collect_words body) as [ws|e] eqn:E; [|discriminate].
    apply collect_words_returns in E.
    destruct ws as [|w0 ws]; [discriminate|].
    destruct ((w0 :: ws) !! (rnd mod length (w0 :: ws))%nat)
      as [w'|] eqn:Hw; [|discriminate].
    intros [= <-].
    destruct (Forall2_lookup_r _ _ _ _ _ E Hw) as (d & Hd & Hword).
    exists body, d. repeat split; [|exact Hword].
    eapply list_elem_of_lookup_2, Hd.
  - intros body -> Hne Hall.
    destruct (collect_words_total body Hall) as (ws & -> & Hlen).
    destruct ws as [|w0 ws].
    { destruct body; [contradiction|discriminate]. }
    assert (Hlt : (rnd mod length (w0 :: ws) < length (w0 :: ws))%nat).
    { apply Nat.mod_upper_bound. discriminate. }
    apply lookup_lt_is_Some in Hlt. destruct Hlt as [w Hw].
    exists w. now rewrite Hw.
Qed.

(** X22.  The failures of [get_random_word].  A body [None] gives the
    [ValueError] "This combination does not exist"; a decoding error is
    passed on as it is; any other exception of the request becomes
    [Exception("Unexpected API error.")]; an empty list gives the
    [IndexError] of [random.choice]; an object without the key ['word']
    gives [KeyError('word')]. *)
Theorem get_random_word_errors (rnd : nat) (language category : pystr) :
  let target := api_url ++ lit "?language=" ++ language
                ++ lit "&category=" ++ category in
  (fetch target = Json None ->
   get_random_word fetch rnd language category
   = ApiRaises (ApiValueError msg_no_combination)) /\
  (forall msg, fetch target = BadBody msg ->
   get_random_word fetch rnd language category
   = ApiRaises (ApiValueError msg)) /\
  (forall msg, fetch target = Failed msg ->
   get_random_word fetch rnd language category
   = ApiRaises (ApiException msg_unexpected)) /\
  (fetch target = Json (Some []) ->
   get_random_word fetch rnd language category = ApiRaises ApiIndexError) /\
  (forall (body : list item) (d : item),
     fetch target = Json (Some body) -> d ∈ body ->
     (forall v, (lit "word", v) ∉ d) ->
     get_random_word fetch rnd language category
     = ApiRaises (ApiKeyError (lit "word"))).
Proof.
  intros target. unfold get_random_word, get_valid_response. fold target.
  repeat split.
  - now intros ->.
  - now intros msg ->.
  - now intros msg ->.
  - now intros ->.
  - intros body d -> Hd Hno.
    now rewrite (collect_words_missing body d Hd Hno).
Qed.

End WordSourceProperties.

(** * The further properties at work *)

Lemma reachable_game_cat : reachable lower_ascii isalpha_ascii game_cat.
Proof. now apply (reachable_init _ _ (lit "cat")). Qed.

Lemma reachable_game_c : reachable lower_ascii isalpha_ascii game_c.
Proof.
  change game_c
    with (make_guess lower_ascii isalpha_ascii (lit "c") game_cat).2.
  constructor. apply reachable_game_cat.
Qed.

Lemma reachable_game_a : reachable lower_ascii isalpha_ascii game_a.
Proof.
  change game_a
    with (make_guess lower_ascii isalpha_ascii (lit "a")
            (mkHangMan (lit "a") [underscore] 0 ∅ 0)).2.
  constructor. now apply (reachable_init _ _ (lit "a")).
Qed.

Lemma session_screen_cat : session lower_ascii isalpha_ascii screen_cat.
Proof. constructor. Qed.

Lemma no_underscore_in_cat : 95%N ∉ answer game_cat.
Proof.
  intros H. simpl in H. apply list_elem_of_In in H. simpl in H.
  repeat destruct H as [H|H]; try discriminate H. exact H.
Qed.

Lemma game_mask_sound_witness :
  reachable lower_ascii isalpha_ascii game_c /\
  length (hint game_c) = length (answer game_c) /\
  forall (i : nat) (c : N), answer game_c !! i = Some c ->
    (hint game_c !! i = Some underscore \/ hint game_c !! i = Some [c]) /\
    (isalpha_ascii c = false -> hint game_c !! i = Some [c]).
Proof.
  split; [exact reachable_game_c|].
  exact (game_mask_sound lower_ascii isalpha_ascii game_c reachable_game_c).
Defined.

Lemma revealed_entries_stay_witness :
  reachable lower_ascii isalpha_ascii game_c /\
  hint game_c !! 0%nat <> Some underscore /\
  (forall input : pystr,
     hint (make_guess lower_ascii isalpha_ascii input game_c).2 !! 0%nat
     = hint game_c !! 0%nat) /\
  (forall rnd : nat,
     hint (give_hint rnd game_c).2 !! 0%nat = hint game_c !! 0%nat).
Proof.
  assert (H : hint game_c !! 0%nat <> Some underscore) by discriminate.
  split; [exact reachable_game_c|]. split; [exact H|].
  exact (revealed_entries_stay lower_ascii isalpha_ascii game_c 0%nat
           reachable_game_c H).
Defined.

Lemma game_counters_witness :
  reachable lower_ascii isalpha_ascii game_c /\
  0 <= consecutive_errors game_c <= wrong_guesses game_c.
Proof.
  split; [exact reachable_game_c|].
  exact (game_counters lower_ascii isalpha_ascii game_c reachable_game_c).
Defined.

Lemma wrong_guesses_count_witness :
  reachable lower_ascii isalpha_ascii game_c /\
  wrong_guesses game_c = Z.of_nat (size (missed_letters game_c)) /\
  forall s : pystr, s ∈ guessed_letters game_c ->
    exists c : N, s = [c] /\ isalpha_ascii c = true.
Proof.
  split; [exact reachable_game_c|].
  exact (wrong_guesses_count lower_ascii isalpha_ascii game_c
           reachable_game_c).
Defined.

Lemma make_guess_accepts_exactly_witness :
  consistent game_cat /\
  ((make_guess lower_ascii isalpha_ascii (lit "T") game_cat).1 = Returns tt
   <-> exists c : N, lower_ascii (lit "T") = [c] /\ isalpha_ascii c = true /\
                     [c] ∉ guessed_letters game_cat) /\
  ((make_guess lower_ascii isalpha_ascii (lit "T") game_cat).1 <> Returns tt ->
   exists msg : pystr,
     make_guess lower_ascii isalpha_ascii (lit "T") game_cat
     = (Raises (ValueError msg), game_cat)).
Proof.
  split; [reflexivity|].
  exact (make_guess_accepts_exactly lower_ascii isalpha_ascii (lit "T")
           game_cat eq_refl).
Defined.

Lemma repeated_guess_rejected_witness :
  consistent game_cat /\
  lower_ascii (lit "C") = [99%N] /\ isalpha_ascii 99%N = true /\
  ([99%N] ∉ guessed_letters game_cat) /\
  make_guess lower_ascii isalpha_ascii (lit "C")
    (make_guess lower_ascii isalpha_ascii (lit "C") game_cat).2
  = (Raises (ValueError (msg_already [99%N])),
     (make_guess lower_ascii isalpha_ascii (lit "C") game_cat).2).
Proof.
  assert (Hnew : [99%N] ∉ guessed_letters game_cat).
  { simpl. apply not_elem_of_empty. }
  split; [reflexivity|]. split; [reflexivity|]. split; [reflexivity|].
  split; [exact Hnew|].
  exact (repeated_guess_rejected lower_ascii isalpha_ascii (lit "C") 99%N
           game_cat eq_refl eq_refl eq_refl Hnew).
Defined.

Lemma give_hint_returns_witness :
  consistent game_cat /\
  exists msg : pystr, (give_hint 2 game_cat).1 = Returns msg.
Proof.
  split; [reflexivity|]. exact (give_hint_returns 2 game_cat eq_refl).
Defined.

Lemma display_hint_masks_answer_witness :
  reachable lower_ascii isalpha_ascii game_c /\
  length (display_hint game_c) = length (display_answer game_c) /\
  forall (i : nat) (x : N), display_hint game_c !! i = Some x ->
    x = 95%N \/ display_answer game_c !! i = Some x.
Proof.
  split; [exact reachable_game_c|].
  exact (display_hint_masks_answer lower_ascii isalpha_ascii game_c
           reachable_game_c).
Defined.

Lemma won_mask_is_secret_witness :
  reachable lower_ascii isalpha_ascii game_a /\
  win_condition game_a = true /\
  hint game_a = List.map (fun c => [c]) (answer game_a) /\
  display_hint game_a = display_answer game_a.
Proof.
  split; [exact reachable_game_a|]. split; [reflexivity|].
  exact (won_mask_is_secret lower_ascii isalpha_ascii game_a
           reachable_game_a eq_refl).
Defined.

Lemma all_letters_guessed_won_witness :
  reachable lower_ascii isalpha_ascii game_a /\
  (95%N ∉ answer game_a) /\
  (forall c : N, c ∈ answer game_a -> isalpha_ascii c = true ->
     [c] ∈ guessed_letters game_a) /\
  win_condition game_a = true.
Proof.
  assert (Hno : 95%N ∉ answer game_a).
  { intros H. simpl in H. apply list_elem_of_singleton in H. discriminate H. }
  assert (Hall : forall c : N, c ∈ answer game_a -> isalpha_ascii c = true ->
                   [c] ∈ guessed_letters game_a).
  { intros c H _. simpl in H. apply list_elem_of_singleton in H. subst c.
    simpl. now apply elem_of_singleton. }
  split; [exact reachable_game_a|]. split; [exact Hno|].
  split; [exact Hall|].
  exact (all_letters_guessed_won lower_ascii isalpha_ascii game_a
           reachable_game_a Hno Hall).
Defined.

Lemma placeholders_never_grow_witness :
  reachable lower_ascii isalpha_ascii game_c /\
  (forall input : pystr,
     (placeholders
        (hint (make_guess lower_ascii isalpha_ascii input game_c).2)
      <= placeholders (hint game_c))%nat) /\
  (forall rnd : nat,
     (placeholders (hint (give_hint rnd game_c).2)
      <= placeholders (hint game_c))%nat) /\
  (win_condition game_c = true <-> placeholders (hint game_c) = 0%nat).
Proof.
  split; [exact reachable_game_c|].
  exact (placeholders_never_grow lower_ascii isalpha_ascii game_c
           reachable_game_c).
Defined.

Lemma hint_removes_one_placeholder_witness :
  reachable lower_ascii isalpha_ascii game_cat /\
  (95%N ∉ answer game_cat) /\
  underscore ∈ hint game_cat /\
  (placeholders (hint (give_hint 1 game_cat).2) + 1)%nat
  = placeholders (hint game_cat).
Proof.
  assert (Hin : underscore ∈ hint game_cat) by (simpl; left).
  split; [exact reachable_game_cat|]. split; [exact no_underscore_in_cat|].
  split; [exact Hin|].
  exact (hint_removes_one_placeholder lower_ascii isalpha_ascii 1 game_cat
           reachable_game_cat no_underscore_in_cat Hin).
Defined.

Lemma display_hangman_stages_witness :
  0 <= 3 <= 6 /\ ~ (0 <= 7 <= 6) /\
  (exists l2 l3 l4 : string,
     display_hangman 3
     = Some [ " +------+ "%string; " |      |"%string;
              String.append " |     " l2; String.append " |     " l3;
              String.append " |     " l4;
              " |     "%string; "_|_________"%string ]) /\
  display_hangman 7 = None.
Proof.
  assert (H3 : 0 <= 3 <= 6) by lia.
  assert (H7 : ~ (0 <= 7 <= 6)) by lia.
  split; [exact H3|]. split; [exact H7|]. split.
  - exact (proj1 (display_hangman_stages 3) H3).
  - exact (proj2 (display_hangman_stages 7) H7).
Defined.

Lemma display_hangman_on_canvas_spec_witness :
  0 <= 6 <= 6 /\ ~ (0 <= 7 <= 6) /\
  (exists l1 l2 l3 l4 l5 l6 l7 : string,
     display_hangman 6 = Some [l1; l2; l3; l4; l5; l6; l7] /\
     display_hangman_on_canvas 6 screen_cat
     = (Done,
        set_canvas [ (30, 10, l1); (30, 28, l2); (30, 46, l3); (30, 64, l4);
                     (30, 82, l5); (30, 100, l6); (30, 118, l7) ]
                   screen_cat)) /\
  display_hangman_on_canvas 7 screen_cat
  = (Crash UnboundLocalError,
     show (ShowInfo (lit "Error") (str_of_int 7)) (set_canvas [] screen_cat)).
Proof.
  assert (H6 : 0 <= 6 <= 6) by lia.
  assert (H7 : ~ (0 <= 7 <= 6)) by lia.
  split; [exact H6|]. split; [exact H7|]. split.
  - exact (proj1 (display_hangman_on_canvas_spec 6 screen_cat) H6).
  - exact (proj2 (display_hangman_on_canvas_spec 7 screen_cat) H7).
Defined.

Lemma session_never_crashes_witness :
  session lower_ascii isalpha_ascii screen_cat /\
  guess_button_enabled screen_cat = true /\
  forall (text : pystr) (ask : bool) (rnd : nat),
    (play_hangman lower_ascii isalpha_ascii ask rnd
       (type_guess text screen_cat)).1 = Done.
Proof.
  split; [exact session_screen_cat|]. split; [reflexivity|].
  exact (proj2 (session_never_crashes lower_ascii isalpha_ascii) screen_cat
               session_screen_cat eq_refl).
Defined.

Lemma session_lives_witness :
  session lower_ascii isalpha_ascii screen_cat /\
  0 <= wrong_guesses (game screen_cat) <= 6 /\
  (guess_button_enabled screen_cat = true ->
   lose_condition (game screen_cat) = false) /\
  (guess_button_enabled screen_cat = false ->
   win_condition (game screen_cat) = true \/
   lose_condition (game screen_cat) = true).
Proof.
  split; [exact session_screen_cat|].
  exact (session_lives lower_ascii isalpha_ascii screen_cat
           session_screen_cat).
Defined.

Lemma hint_offered_at_most_once_witness :
  session lower_ascii isalpha_ascii screen_cat /\
  (hint_offers screen_cat <= 1)%nat /\
  (guess_button_enabled screen_cat = true ->
   consecutive_errors (game screen_cat) <= 2).
Proof.
  split; [exact session_screen_cat|].
  exact (hint_offered_at_most_once lower_ascii isalpha_ascii screen_cat
           session_screen_cat).
Defined.

Lemma screen_shows_game_witness :
  session lower_ascii isalpha_ascii screen_cat /\
  lives_label screen_cat
  = lit "Lives Remaining: "
    ++ str_of_int (6 - wrong_guesses (game screen_cat)) /\
  (exists lines : list string,
     display_hangman (wrong_guesses (game screen_cat)) = Some lines /\
     canvas screen_cat = canvas_lines 10 lines) /\
  (guessed_letters (game screen_cat) <> ∅ ->
   guessed_word_label screen_cat = display_hint (game screen_cat)).
Proof.
  split; [exact session_screen_cat|].
  exact (screen_shows_game lower_ascii isalpha_ascii screen_cat
           session_screen_cat).
Defined.

Lemma rejected_click_changes_nothing_witness :
  consistent (game screen_cat) /\
  (make_guess lower_ascii isalpha_ascii (lit "42") (game screen_cat)).1
  <> Returns tt /\
  exists msg : pystr,
    (make_guess lower_ascii isalpha_ascii (lit "42") (game screen_cat)).1
    = Raises (ValueError msg) /\
    play_hangman lower_ascii isalpha_ascii true 0
      (type_guess (lit "42") screen_cat)
    = (Done, show (ShowInfo (lit "Error") msg)
                  (set_entry_letter [] screen_cat)).
Proof.
  assert (Hrej : (make_guess lower_ascii isalpha_ascii (lit "42")
                    (game screen_cat)).1 <> Returns tt) by discriminate.
  split; [reflexivity|]. split; [exact Hrej|].
  exact (rejected_click_changes_nothing lower_ascii isalpha_ascii (lit "42")
           true 0 screen_cat eq_refl Hrej).
Defined.

Lemma get_categories_languages_unique_witness :
  get_categories_languages sample_fetch
  = ApiReturns ([JString (lit "en"); JString (lit "nl")],
                [JString (lit "animals")]) /\
  exists body : list item,
    sample_fetch api_url = Json (Some body) /\
    NoDup [JString (lit "en"); JString (lit "nl")] /\
    NoDup [JString (lit "animals")] /\
    (forall v, v ∈ [JString (lit "en"); JString (lit "nl")] <->
               exists d, d ∈ body /\ (lit "language", v) ∈ d) /\
    (forall v, v ∈ [JString (lit "animals")] <->
               exists d, d ∈ body /\ (lit "category", v) ∈ d).
Proof.
  split; [reflexivity|].
  exact (get_categories_languages_unique sample_fetch _ _ eq_refl).
Defined.

Lemma get_random_word_returns_witness :
  get_random_word sample_fetch 4 (lit "en") (lit "animals")
  = ApiReturns (JString (lit "dog")) /\
  exists (body : list item) (d : item),
    sample_fetch (api_url ++ lit "?language=" ++ lit "en"
                  ++ lit "&category=" ++ lit "animals")
    = Json (Some body) /\
    d ∈ body /\
    dict_getitem d (lit "word") = ApiReturns (JString (lit "dog")).
Proof.
  split; [reflexivity|].
  exact (proj1 (get_random_word_returns sample_fetch 4 (lit "en")
                  (lit "animals")) _ eq_refl).
Defined.

Lemma get_random_word_errors_witness :
  (fun _ : pystr => Json None)
    (api_url ++ lit "?language=" ++ lit "en"
     ++ lit "&category=" ++ lit "stars") = Json None /\
  get_random_word (fun _ => Json None) 0 (lit "en") (lit "stars")
  = ApiRaises (ApiValueError msg_no_combination).
Proof.
  split; [reflexivity|].
  exact (proj1 (get_random_word_errors (fun _ => Json None) 0 (lit "en")
                  (lit "stars")) eq_refl).
Defined.

(** * Hints, once more *)

(** X23.  [give_hint] is fair to the positions: in a state whose mask and
    secret have the same length, every position that holds a placeholder is
    the one revealed for some draw of [random.choice], and the message then
    names the secret's character of that position. *)
Theorem hint_reaches_every_placeholder (i : nat) (g : HangMan) :
  consistent g -> hint g !! i = Some underscore ->
  exists (rnd : nat) (c : N),
    answer g !! i = Some c /\
    give_hint rnd g = (Returns (msg_hint [c]), after_hint i c g).
Proof. apply give_hint_any_position. Qed.

Section HintsInGames.

Variable str_lower : pystr -> pystr.
Variable chr_isalpha : N -> bool.

Local Abbreviation HangMan_init := (HangMan_init str_lower chr_isalpha).
Local Abbreviation make_guess := (make_guess str_lower chr_isalpha).
Local Abbreviation reachable := (reachable str_lower chr_isalpha).
Local Abbreviation play_hangman := (play_hangman str_lower chr_isalpha).
Local Abbreviation session := (session str_lower chr_isalpha).

(** X24.  A secret whose lowercase form has no letter and no underscore is
    won from the start: the mask is the secret, the win test holds, and
    [give_hint] answers that no hint is needed and changes nothing. *)
Theorem letterless_secret_won (word : pystr) :
  (forall c : N, c ∈ str_lower word ->
     chr_isalpha c = false /\ c <> 95%N) ->
  exists g : HangMan,
    HangMan_init word = Returns g /\
    hint g = List.map (fun c => [c]) (answer g) /\
    win_condition g = true /\
    forall rnd : nat, give_hint rnd g = (Returns msg_no_hint, g).
Proof. apply secret_without_letters_won. Qed.

(** What the next theorem uses of the Unicode tables: the underscore is not
    alphabetic, and [str.lower] leaves the characters of a lowercase string
    as they are. *)
Hypothesis underscore_not_alpha : chr_isalpha 95%N = false.
Hypothesis lower_fixed :
  forall (s : pystr) (c : N), c ∈ str_lower s -> str_lower [c] = [c].

(** X25.  [give_hint] does not add the letter it shows to
    [guessed_letters].  In a game, whenever the character shown by a hint
    is a letter, the guess of that letter right after is accepted, leaves
    [wrong_guesses] as it was, sets [consecutive_errors] to 0 and shows the
    letter at every position where the secret has it. *)
Theorem hinted_letter_can_be_guessed (rnd : nat) (g : HangMan) :
  reachable g -> underscore ∈ hint g ->
  exists (i : nat) (c : N),
    hint g !! i = Some underscore /\ answer g !! i = Some c /\
    give_hint rnd g = (Returns (msg_hint [c]), after_hint i c g) /\
    (chr_isalpha c = true ->
       ([c] ∉ guessed_letters (after_hint i c g)) /\
       exists g2 : HangMan,
         make_guess [c] (after_hint i c g) = (Returns tt, g2) /\
         (forall j, answer g !! j = Some c -> hint g2 !! j = Some [c]) /\
         wrong_guesses g2 = wrong_guesses g /\
         consecutive_errors g2 = 0).
Proof.
  now apply reachable_hinted_letter_accepted.
Qed.

End HintsInGames.

Section HintBoxes.

Variable str_lower : pystr -> pystr.
Variable chr_isalpha : N -> bool.

Local Abbreviation make_guess := (make_guess str_lower chr_isalpha).
Local Abbreviation reachable := (reachable str_lower chr_isalpha).
Local Abbreviation play_game := (play_game str_lower chr_isalpha).
Local Abbreviation play_hangman := (play_hangman str_lower chr_isalpha).
Local Abbreviation session := (session str_lower chr_isalpha).
Local Abbreviation session_inv := (session_inv str_lower chr_isalpha).

Lemma hint_boxes_name_app (secret : pystr) (ds ds' : list dialog) :
  hint_boxes_name secret ds -> hint_boxes_name secret ds' ->
  hint_boxes_name secret (ds ++ ds').
Proof.
  intros H H' d Hd. apply elem_of_app in Hd as [Hd|Hd]; auto.
Qed.

Lemma hint_boxes_name_other (secret title m : pystr) :
  title <> lit "Hint" -> hint_boxes_name secret [ShowInfo title m].
Proof.
  intros Ht d Hd Htitle. apply list_elem_of_singleton in Hd. subst d.
  simpl in Htitle. contradiction.
Qed.

Lemma hint_boxes_name_ask (secret : pystr) (b : bool) :
  hint_boxes_name secret
    [AskYesNo (lit "Hint") (lit "Do you want a hint?") b].
Proof.
  intros d Hd _. apply list_elem_of_singleton in Hd. left. now exists b.
Qed.

Lemma hint_boxes_name_hint (secret : pystr) (c : N) :
  c ∈ secret -> hint_boxes_name secret [ShowInfo (lit "Hint") (msg_hint [c])].
Proof.
  intros Hc d Hd _. apply list_elem_of_singleton in Hd. right. now exists c.
Qed.

Lemma click_hint_boxes (text : pystr) (ask : bool) (rnd : nat) (a : App) :
  session_inv a -> guess_button_enabled a = true ->
  hint_boxes_name (answer (game a)) (dialogs a) ->
  answer (game (play_hangman ask rnd (type_guess text a)).2)
  = answer (game a) /\
  hint_boxes_name (answer (game a))
    (dialogs (play_hangman ask rnd (type_guess text a)).2).
Proof.
  intros (Hr & Hw6 & Hen & _) He Hboxes.
  destruct (Hen He) as [Hw5 _].
  pose proof (reachable_counters _ _ _ Hr) as Hcnt.
  destruct (reachable_invariant _ _ _ Hr) as (Hc & _ & _).
  assert (Herr : lit "Error" <> lit "Hint") by discriminate.
  assert (Hwon : lit "WIN" <> lit "Hint") by discriminate.
  assert (Hlost : lit "LOSE" <> lit "Hint") by discriminate.
  destruct (make_guess_outcome str_lower chr_isalpha text (game a) Hc)
    as [(msg & Hrun & _)|(c & Hlow & Ha & Hnew & Hrun)].
  - rewrite (play_hangman_rejected _ _ text msg (game a) ask rnd a Hrun).
    screen_simpl. split; [reflexivity|].
    apply hint_boxes_name_app; [exact Hboxes|].
    now apply hint_boxes_name_other.
  - set (g1 := after_guess c (game a)) in *.
    assert (Hans : answer g1 = answer (game a)) by apply answer_after_guess.
    assert (Hc1 : consistent g1) by now apply consistent_after_guess.
    pose proof (after_guess_counters c (game a)) as Hstep. fold g1 in Hstep.
    destruct (display_hangman_on_canvas_inside (wrong_guesses g1) a)
      as (lines & Hlines & _ & _); [lia|].
    rewrite (play_hangman_accepted _ _ text g1 lines ask rnd a Hrun Hlines).
    cbv zeta.
    destruct (win_condition g1) eqn:Hwin.
    { screen_simpl. split; [exact Hans|].
      apply hint_boxes_name_app; [exact Hboxes|].
      now apply hint_boxes_name_other. }
    destruct (lose_condition g1).
    { screen_simpl. split; [exact Hans|].
      apply hint_boxes_name_app; [exact Hboxes|].
      now apply hint_boxes_name_other. }
    destruct (consecutive_errors g1 =? 3);
      [|screen_simpl; split; [exact Hans|exact Hboxes]].
    destruct ask.
    + assert (Hin : underscore ∈ hint g1).
      { destruct (decide (underscore ∈ hint g1)) as [H|H]; [exact H|].
        apply win_condition_no_placeholder in H. congruence. }
      destruct (give_hint_reveals rnd g1 Hc1 Hin)
        as (i & c' & Hi & Hci & Hrun').
      rewrite Hrun'. screen_simpl. split; [exact Hans|].
      apply hint_boxes_name_app;
        [apply hint_boxes_name_app;
           [exact Hboxes|apply hint_boxes_name_ask]|].
      apply hint_boxes_name_hint.
      rewrite <- Hans. eapply list_elem_of_lookup_2, Hci.
    + screen_simpl. split; [exact Hans|].
      apply hint_boxes_name_app; [exact Hboxes|].
      apply hint_boxes_name_ask.
Qed.

Lemma session_hint_boxes (a : App) :
  session a -> hint_boxes_name (answer (game a)) (dialogs a).
Proof.
  induction 1 as [word|text ask rnd a Hs IH He].
  - intros d Hd. inversion Hd.
  - pose proof (session_invariant _ _ a Hs) as Hinv.
    destruct (click_hint_boxes text ask rnd a Hinv He IH) as [Hans H].
    now rewrite Hans.
Qed.

(** X26.  On a game screen every box titled "Hint" is either the yes/no
    question "Do you want a hint?" or an information box that reads "Hint:
    the letter 'c' is in the word." for a character [c] of the secret.  The
    answer "No hint needed, you already know the word." of [give_hint] is
    never the text of such a box: the question is only asked while a
    placeholder is left. *)
Theorem hint_box_names_a_character (a : App) (d : dialog) :
  session a -> d ∈ dialogs a -> dialog_title d = lit "Hint" ->
  ((exists b : bool,
      d = AskYesNo (lit "Hint") (lit "Do you want a hint?") b) \/
   (exists c : N, c ∈ answer (game a) /\
                  d = ShowInfo (lit "Hint") (msg_hint [c]))) /\
  (forall (title : pystr) (b : bool),
     d <> ShowInfo title msg_no_hint /\ d <> AskYesNo title msg_no_hint b).
Proof.
  intros Hs Hd Ht.
  pose proof (session_hint_boxes a Hs d Hd Ht) as H.
  split; [exact H|]. intros title b.
  destruct H as [[b' ->]|(c & _ & ->)]; split; discriminate.
Qed.

End HintBoxes.

Lemma lower_ascii_fixed (s : pystr) (c : N) :
  c ∈ lower_ascii s -> lower_ascii [c] = [c].
Proof.
  unfold lower_ascii. intros H. apply list_elem_of_In, in_map_iff in H.
  destruct H as (a & <- & _). simpl.
  destruct (isupper_ascii a) eqn:Ea; [|now rewrite Ea].
  assert (Eb : isupper_ascii (a + 32) = false).
  { unfold isupper_ascii in *. apply andb_true_iff in Ea as [H1 H2].
    apply N.leb_le in H1. apply N.leb_le in H2.
    apply andb_false_iff. right. apply N.leb_gt. lia. }
  now rewrite Eb.
Qed.

Lemma session_screen_hinted :
  session lower_ascii isalpha_ascii screen_hinted.
Proof.
  unfold screen_hinted, click_cat.
  repeat (apply session_click; [|vm_compute; reflexivity]).
  apply session_screen_cat.
Qed.

Lemma hint_reaches_every_placeholder_witness :
  consistent game_cat /\
  hint game_cat !! 1%nat = Some underscore /\
  exists (rnd : nat) (c : N),
    answer game_cat !! 1%nat = Some c /\
    give_hint rnd game_cat
    = (Returns (msg_hint [c]), after_hint 1 c game_cat).
Proof.
  split; [reflexivity|]. split; [reflexivity|].
  exact (hint_reaches_every_placeholder 1 game_cat eq_refl eq_refl).
Defined.

Lemma letterless_secret_won_witness :
  (forall c : N, c ∈ lower_ascii (lit "3 7") ->
     isalpha_ascii c = false /\ c <> 95%N) /\
  exists g : HangMan,
    HangMan_init lower_ascii isalpha_ascii (lit "3 7") = Returns g /\
    hint g = List.map (fun c => [c]) (answer g) /\
    win_condition g = true /\
    forall rnd : nat, give_hint rnd g = (Returns msg_no_hint, g).
Proof.
  assert (H : forall c : N, c ∈ lower_ascii (lit "3 7") ->
                isalpha_ascii c = false /\ c <> 95%N).
  { intros c Hc. apply list_elem_of_In in Hc. simpl in Hc.
    destruct Hc as [<-|[<-|[<-|[]]]]; split; (reflexivity || discriminate). }
  split; [exact H|].
  exact (letterless_secret_won lower_ascii isalpha_ascii (lit "3 7") H).
Defined.

Lemma hinted_letter_can_be_guessed_witness :
  isalpha_ascii 95%N = false /\
  (forall (s : pystr) (c : N),
     c ∈ lower_ascii s -> lower_ascii [c] = [c]) /\
  reachable lower_ascii isalpha_ascii game_cat /\
  underscore ∈ hint game_cat /\
  exists (i : nat) (c : N),
    hint game_cat !! i = Some underscore /\
    answer game_cat !! i = Some c /\
    give_hint 2 game_cat = (Returns (msg_hint [c]), after_hint i c game_cat) /\
    (isalpha_ascii c = true ->
       ([c] ∉ guessed_letters (after_hint i c game_cat)) /\
       exists g2 : HangMan,
         make_guess lower_ascii isalpha_ascii [c] (after_hint i c game_cat)
         = (Returns tt, g2) /\
         (forall j, answer game_cat !! j = Some c ->
                    hint g2 !! j = Some [c]) /\
         wrong_guesses g2 = wrong_guesses game_cat /\
         consecutive_errors g2 = 0).
Proof.
  assert (Hin : underscore ∈ hint game_cat) by (simpl; left).
  split; [reflexivity|]. split; [exact lower_ascii_fixed|].
  split; [exact reachable_game_cat|]. split; [exact Hin|].
  exact (hinted_letter_can_be_guessed lower_ascii isalpha_ascii eq_refl
           lower_ascii_fixed 2 game_cat reachable_game_cat Hin).
Defined.

Lemma hint_box_names_a_character_witness :
  session lower_ascii isalpha_ascii screen_hinted /\
  ShowInfo (lit "Hint") (msg_hint (lit "c")) ∈ dialogs screen_hinted /\
  dialog_title (ShowInfo (lit "Hint") (msg_hint (lit "c"))) = lit "Hint" /\
  ((exists b : bool,
      ShowInfo (lit "Hint") (msg_hint (lit "c"))
      = AskYesNo (lit "Hint") (lit "Do you want a hint?") b) \/
   (exists c : N, c ∈ answer (game screen_hinted) /\
                  ShowInfo (lit "Hint") (msg_hint (lit "c"))
                  = ShowInfo (lit "Hint") (msg_hint [c]))) /\
  (forall (title : pystr) (b : bool),
     ShowInfo (lit "Hint") (msg_hint (lit "c"))
     <> ShowInfo title msg_no_hint /\
     ShowInfo (lit "Hint") (msg_hint (lit "c"))
     <> AskYesNo title msg_no_hint b).
Proof.
  assert (Hm : ShowInfo (lit "Hint") (msg_hint (lit "c"))
               ∈ dialogs screen_hinted).
  { apply list_elem_of_In. vm_compute. right. left. reflexivity. }
  split; [exact session_screen_hinted|]. split; [exact Hm|].
  split; [reflexivity|].
  exact (hint_box_names_a_character lower_ascii isalpha_ascii screen_hinted
           _ session_screen_hinted Hm eq_refl).
Defined.

(** * Placeholders and hidden letters *)

Section HiddenLetters.

Variable str_lower : pystr -> pystr.
Variable chr_isalpha : N -> bool.

Local Abbreviation make_guess := (make_guess str_lower chr_isalpha).
Local Abbreviation reachable := (reachable str_lower chr_isalpha).
Local Abbreviation hidden_letter := (hidden_letter chr_isalpha).

(** On a secret without underscores an entry ["_"] of the mask hides a
    letter. *)
Lemma placeholder_hides_letter (g : HangMan) (i : nat) :
  reachable g -> 95%N ∉ answer g ->
  hint g !! i = Some underscore -> hidden_letter g i.
Proof.
  intros Hr Hno Hi.
  destruct (reachable_invariant _ _ _ Hr) as (Hc & _ & _).
  assert (Hlt : (i < length (answer g))%nat).
  { rewrite <- Hc. eapply lookup_lt_Some, Hi. }
  apply lookup_lt_is_Some in Hlt. destruct Hlt as [c Hci].
  exists c. split; [exact Hci|]. split; [|exact Hi].
  destruct (chr_isalpha c) eqn:Ha; [reflexivity|].
  pose proof (reachable_nonalpha _ _ g Hr i c Hci Ha) as Hshown.
  rewrite Hi in Hshown. injection Hshown as <-.
  exfalso. apply Hno. eapply list_elem_of_lookup_2, Hci.
Qed.

(** On a secret without underscores the win test holds exactly when no
    letter is hidden. *)
Lemma win_condition_hidden (g : HangMan) :
  reachable g -> 95%N ∉ answer g ->
  (win_condition g = true <-> forall i, ~ hidden_letter g i).
Proof.
  intros Hr Hno. rewrite win_condition_no_placeholder. split.
  - intros Hout i (c & _ & _ & Hi).
    apply Hout. eapply list_elem_of_lookup_2, Hi.
  - intros Hnone Hin. apply list_elem_of_lookup in Hin.
    destruct Hin as [i Hi]. apply (Hnone i).
    now apply placeholder_hides_letter.
Qed.

(** On a secret without underscores [give_hint] does what the specification
    asks: while a letter is hidden it reveals one hidden letter and nothing
    else, and when none is hidden it refuses and changes nothing. *)
Lemma give_hint_reveals_hidden_letter (rnd : nat) (g : HangMan) :
  reachable g -> 95%N ∉ answer g ->
  ((exists i, hidden_letter g i) ->
   exists (i : nat) (c : N),
     hidden_letter g i /\ answer g !! i = Some c /\ [c] <> underscore /\
     give_hint rnd g = (Returns (msg_hint [c]), after_hint i c g)) /\
  ((forall i, ~ hidden_letter g i) ->
   give_hint rnd g = (Returns msg_no_hint, g)).
Proof.
  intros Hr Hno. destruct (reachable_invariant _ _ _ Hr) as (Hc & _ & _).
  split.
  - intros (i0 & c0 & _ & _ & Hi0).
    assert (Hin : underscore ∈ hint g).
    { eapply list_elem_of_lookup_2, Hi0. }
    destruct (give_hint_reveals rnd g Hc Hin) as (i & c & Hi & Hci & Hrun).
    exists i, c. split; [now apply placeholder_hides_letter|].
    split; [exact Hci|]. split; [|exact Hrun].
    intros [= ->]. apply Hno. eapply list_elem_of_lookup_2, Hci.
  - intros Hnone. apply give_hint_no_placeholder.
    apply win_condition_no_placeholder.
    now apply win_condition_hidden.
Qed.

(** What the next proofs use of the Unicode tables: the underscore is not
    alphabetic, and [str.lower] leaves the characters of a lowercase string
    as they are. *)
Hypothesis underscore_not_alpha : chr_isalpha 95%N = false.
Hypothesis lower_fixed :
  forall (s : pystr) (c : N), c ∈ str_lower s -> str_lower [c] = [c].

(** A game on a secret that contains an underscore is never won. *)
Lemma underscore_secret_never_won (g : HangMan) :
  reachable g -> 95%N ∈ answer g -> win_condition g = false.
Proof.
  intros Hr Hin. apply list_elem_of_lookup in Hin. destruct Hin as [i Hi].
  pose proof (reachable_nonalpha _ _ g Hr i _ Hi underscore_not_alpha)
    as Hshown.
  destruct (win_condition g) eqn:Hwin; [|reflexivity].
  apply win_condition_no_placeholder in Hwin.
  exfalso. apply Hwin. eapply list_elem_of_lookup_2, Hshown.
Qed.

(** C10.  A letter revealed by [give_hint] is not added to
    [guessed_letters].  In every state of a game with a placeholder left, a
    hint reveals the character [c] of one position and leaves
    [guessed_letters] as it was; whenever [c] is a letter, [c] is not among
    the guessed letters, and the guess of [c] right after is not rejected:
    [make_guess] returns, takes the branch of a correct guess ([c] occurs
    in the secret, [wrong_guesses] is unchanged, [consecutive_errors] is 0),
    records [c], and the mask then shows [c] at every position where the
    secret has it. *)
Theorem hint_does_not_record_letter (rnd : nat) (g : HangMan) :
  reachable g -> underscore ∈ hint g ->
  exists (i : nat) (c : N),
    hint g !! i = Some underscore /\ answer g !! i = Some c /\
    give_hint rnd g = (Returns (msg_hint [c]), after_hint i c g) /\
    guessed_letters (after_hint i c g) = guessed_letters g /\
    (chr_isalpha c = true ->
       ([c] ∉ guessed_letters (after_hint i c g)) /\
       exists g2 : HangMan,
         make_guess [c] (after_hint i c g) = (Returns tt, g2) /\
         str_contains (answer g) [c] = true /\
         wrong_guesses g2 = wrong_guesses g /\
         consecutive_errors g2 = 0 /\
         [c] ∈ guessed_letters g2 /\
         (forall j, answer g !! j = Some c -> hint g2 !! j = Some [c])).
Proof.
  intros Hr Hin.
  destruct (reachable_invariant _ _ _ Hr) as (Hc & Hinv & word & Hw).
  destruct (give_hint_reveals rnd g Hc Hin) as (i & c & Hi & Hci & Hrun).
  exists i, c. split; [exact Hi|]. split; [exact Hci|].
  split; [exact Hrun|]. split; [reflexivity|]. intros Ha.
  assert (Hnew : [c] ∉ guessed_letters g).
  { intros Hg. pose proof (Hinv c i Hg Hci) as H. rewrite Hi in H.
    injection H as H. rewrite <- H in Ha. congruence. }
  assert (Hlow : str_lower [c] = [c]).
  { apply (lower_fixed word). rewrite <- Hw.
    eapply list_elem_of_lookup_2, Hci. }
  assert (Hc1 : consistent (after_hint i c g))
    by now apply consistent_after_hint.
  assert (Hocc : str_contains (answer g) [c] = true).
  { apply str_contains_single. eapply list_elem_of_lookup_2, Hci. }
  split; [exact Hnew|]. exists (after_guess c (after_hint i c g)).
  split; [now apply make_guess_accepted|]. split; [exact Hocc|].
  unfold after_guess. cbn [answer after_hint set_consecutive_errors set_hint].
  rewrite Hocc. cbn [wrong_guesses consecutive_errors guessed_letters hint].
  split; [reflexivity|]. split; [reflexivity|].
  split; [apply elem_of_union_l; now apply elem_of_singleton|].
  intros j Hj. now apply lookup_reveal_all_hit.
Qed.

End HiddenLetters.

Lemma give_hint_underscore_z (rnd : nat) :
  give_hint rnd game_underscore_z
  = (Returns (msg_hint (lit "_")), set_consecutive_errors 0 game_underscore_z).
Proof.
  change (set_consecutive_errors 0 game_underscore_z)
    with (after_hint 0 95%N game_underscore_z).
  apply give_hint_at; [left| |reflexivity|reflexivity].
  intros g'. change (filter _ _) with [0%nat].
  unfold random_choice. cbn [length]. now rewrite Nat.mod_1_r.
Qed.

(** C3 at the secrets ["_"] and ["a_"].  After [HangMan("_")] and the wrong
    guess ["z"] no letter is hidden, yet [give_hint] does not refuse: for
    every draw it returns "Hint: the letter '_' is in the word." and sets
    [consecutive_errors] from 1 to 0.  On [HangMan("a_")] the letter of
    position 0 is hidden and position 1 hides nothing, yet the draw 1 picks
    position 1: the hint reveals nothing and the state stays as it was. *)
Theorem hint_picks_shown_underscore :
  (make_guess lower_ascii isalpha_ascii (lit "z") game_underscore).2
  = game_underscore_z /\
  (forall i, ~ hidden_letter isalpha_ascii game_underscore_z i) /\
  (forall rnd : nat,
     give_hint rnd game_underscore_z
     = (Returns (msg_hint (lit "_")),
        set_consecutive_errors 0 game_underscore_z)) /\
  msg_hint (lit "_") <> msg_no_hint /\
  consecutive_errors game_underscore_z = 1 /\
  HangMan_init lower_ascii isalpha_ascii (lit "a_")
  = Returns game_a_underscore /\
  hidden_letter isalpha_ascii game_a_underscore 0 /\
  ~ hidden_letter isalpha_ascii game_a_underscore 1 /\
  give_hint 1 game_a_underscore
  = (Returns (msg_hint (lit "_")), game_a_underscore).
Proof.
  split; [reflexivity|]. split.
  { intros i (c & Hc & Ha & _). destruct i as [|i]; [|discriminate Hc].
    injection Hc as <-. discriminate Ha. }
  split; [exact give_hint_underscore_z|]. split; [discriminate|].
  split; [reflexivity|]. split; [reflexivity|]. split.
  { exists 97%N. repeat split. }
  split; [|reflexivity].
  intros (c & Hc & Ha & _). injection Hc as <-. discriminate Ha.
Qed.

(** C4 at the secret ["_"].  In the new game [HangMan("_")] no letter is
    hidden and the mask shows the whole secret, yet the win test of
    [play_hangman] is false; the lose test is false as well, so the round
    goes on. *)
Theorem win_test_fails_nothing_hidden :
  HangMan_init lower_ascii isalpha_ascii (lit "_") = Returns game_underscore /\
  (forall i, ~ hidden_letter isalpha_ascii game_underscore i) /\
  hint game_underscore = List.map (fun c => [c]) (answer game_underscore) /\
  win_condition game_underscore = false /\
  lose_condition game_underscore = false.
Proof.
  split; [reflexivity|]. split.
  { intros i (c & Hc & Ha & _). destruct i as [|i]; [|discriminate Hc].
    injection Hc as <-. discriminate Ha. }
  repeat split.
Qed.

Lemma hint_does_not_record_letter_witness :
  isalpha_ascii 95%N = false /\
  (forall (s : pystr) (c : N),
     c ∈ lower_ascii s -> lower_ascii [c] = [c]) /\
  reachable lower_ascii isalpha_ascii game_cat /\
  underscore ∈ hint game_cat /\
  exists (i : nat) (c : N),
    hint game_cat !! i = Some underscore /\
    answer game_cat !! i = Some c /\
    give_hint 2 game_cat = (Returns (msg_hint [c]), after_hint i c game_cat) /\
    guessed_letters (after_hint i c game_cat) = guessed_letters game_cat /\
    (isalpha_ascii c = true ->
       ([c] ∉ guessed_letters (after_hint i c game_cat)) /\
       exists g2 : HangMan,
         make_guess lower_ascii isalpha_ascii [c] (after_hint i c game_cat)
         = (Returns tt, g2) /\
         str_contains (answer game_cat) [c] = true /\
         wrong_guesses g2 = wrong_guesses game_cat /\
         consecutive_errors g2 = 0 /\
         [c] ∈ guessed_letters g2 /\
         (forall j, answer game_cat !! j = Some c ->
                    hint g2 !! j = Some [c])).
Proof.
  assert (Hin : underscore ∈ hint game_cat) by (simpl; left).
  split; [reflexivity|]. split; [exact lower_ascii_fixed|].
  split; [exact reachable_game_cat|]. split; [exact Hin|].
  exact (hint_does_not_record_letter lower_ascii isalpha_ascii eq_refl
           lower_ascii_fixed 2 game_cat reachable_game_cat Hin).
Defined.
